(** * The login endpoint of CN-Task: a shallow embedding and its properties

    The development follows [backend/server.js], the server with the rate
    limiter, the sanitisation and the credential [Map]: the helper
    [sanitizeInput], the handler of [POST /api/login] and the options of
    [loginLimiter].  JavaScript strings are sequences of UTF-16 code
    units, request members are JSON values, and a response is a status
    code with a JSON body.

    The middleware shared by all routes (helmet, compression, CORS, the
    body parsers, the API-wide limiter and the request timeout) is outside
    the embedding.  The first version of the server, under
    [my-first-fullstack/Backend], has neither limiter nor sanitisation;
    its [validCredentials.find] call has the shape of [uniformLookup]
    below. *)

From Stdlib Require Import Floats.SpecFloat.
From stdpp Require Import base decidable numbers list strings option gmap.

Local Open Scope N_scope.
#[local] Set Warnings "-register-all".

(** ** JavaScript strings *)

(** A string is its list of UTF-16 code units; [.length] is [length]. *)
Abbreviation jsstring := (list N).

(** Source literals are ASCII; [lit] gives their code units. *)
Definition lit (s : string) : jsstring :=
  Ascii.N_of_ascii <$> String.list_ascii_of_string s.

Arguments lit : simpl never.

(** [===] on two strings. *)
Definition str_eq (s t : jsstring) : bool := bool_decide (s = t).

(** WhiteSpace and LineTerminator code points of ECMAScript, the ones
    [String.prototype.trim] strips. *)
Definition isWhiteSpace (c : N) : bool :=
  (c =? 0x0009) || (c =? 0x000A) || (c =? 0x000B) || (c =? 0x000C)
  || (c =? 0x000D) || (c =? 0x0020) || (c =? 0x00A0) || (c =? 0x1680)
  || ((0x2000 <=? c) && (c <=? 0x200A))
  || (c =? 0x2028) || (c =? 0x2029) || (c =? 0x202F) || (c =? 0x205F)
  || (c =? 0x3000) || (c =? 0xFEFF).

Fixpoint trimStart (s : jsstring) : jsstring :=
  match s with
  | [] => []
  | c :: rest => if isWhiteSpace c then trimStart rest else s
  end.

Definition trimEnd (s : jsstring) : jsstring :=
  reverse (trimStart (reverse s)).

(** [str.trim()] *)
Definition trim (s : jsstring) : jsstring := trimEnd (trimStart s).

(** The character class [[<>]]. *)
Definition isAngle (c : N) : bool := (c =? 0x3C) || (c =? 0x3E).

(** [str.replace(/[<>]/g, '')] *)
Definition stripAngles (s : jsstring) : jsstring :=
  List.filter (fun c => negb (isAngle c)) s.

(** [s.includes(t)] *)
Fixpoint includes (s t : jsstring) : bool :=
  bool_decide (t `prefix_of` s)
  || match s with
     | [] => false
     | _ :: rest => includes rest t
     end.

(** ** Request values *)

(** What [express.json] / [express.urlencoded] can put in [req.body] and
    under its members.  [JUndefined] is an absent member (or an absent
    body, when no parser ran). *)
Inductive JsValue : Type :=
| JUndefined
| JNull
| JBool (b : bool)
| JNum (x : spec_float)
| JStr (s : jsstring)
| JArr (items : list JsValue)
| JObj (props : list (jsstring * JsValue)).

(** ToBoolean: what [!v], [if (v)] and [Boolean(v)] look at. *)
Definition truthy (v : JsValue) : bool :=
  match v with
  | JUndefined | JNull => false
  | JBool b => b
  | JNum (S754_zero _) | JNum S754_nan => false
  | JNum _ => true
  | JStr s => negb (bool_decide (s = []))
  | JArr _ | JObj _ => true
  end.

(** [typeof v !== 'string'] *)
Definition notString (v : JsValue) : bool :=
  match v with
  | JStr _ => false
  | _ => true
  end.

(** Own property of an object under a key, [undefined] when there is
    none.  An object lists each of its properties once; should a list
    repeat a key, its first binding is the member. *)
Fixpoint getOwn (props : list (jsstring * JsValue)) (k : jsstring) : JsValue :=
  match props with
  | [] => JUndefined
  | (k', v) :: rest => if str_eq k' k then v else getOwn rest k
  end.

(** [v[k]] for the member names the handler reads ([email], [password],
    [rememberMe]): [None] is the TypeError of reading a member of
    [undefined] or [null].  Primitives and arrays have no such member. *)
Definition getMember (v : JsValue) (k : jsstring) : option JsValue :=
  match v with
  | JUndefined | JNull => None
  | JObj props => Some (getOwn props k)
  | _ => Some JUndefined
  end.

(** ** Input helpers of the server *)

(** [sanitizeInput]: non-strings become the empty string, strings are
    trimmed and then lose their angle brackets. *)
Definition sanitizeInput (str : JsValue) : jsstring :=
  match str with
  | JStr s => stripAngles (trim s)
  | _ => []
  end.

(** ** Response bodies *)

Inductive Json : Type :=
| JsonBool (b : bool)
| JsonString (s : jsstring)
| JsonObject (members : list (jsstring * Json)).

Definition hexDigit (d : N) : N :=
  if d <? 10 then 0x30 + d else 0x61 + (d - 10).

(** [\uXXXX] with lower-case hexadecimal digits. *)
Definition unicodeEscape (c : N) : jsstring :=
  [0x5C; 0x75; hexDigit (c / 4096 mod 16); hexDigit (c / 256 mod 16);
   hexDigit (c / 16 mod 16); hexDigit (c mod 16)].

Definition isHighSurrogate (c : N) : bool := (0xD800 <=? c) && (c <=? 0xDBFF).
Definition isLowSurrogate (c : N) : bool := (0xDC00 <=? c) && (c <=? 0xDFFF).

(** The escape of one code unit that is not part of a surrogate pair. *)
Definition quoteUnit (c : N) : jsstring :=
  if c =? 0x08 then lit "\b"
  else if c =? 0x09 then lit "\t"
  else if c =? 0x0A then lit "\n"
  else if c =? 0x0C then lit "\f"
  else if c =? 0x0D then lit "\r"
  else if c =? 0x22 then [0x5C; 0x22]
  else if c =? 0x5C then [0x5C; 0x5C]
  else if (c <? 0x20) || isHighSurrogate c || isLowSurrogate c
       then unicodeEscape c
  else [c].

Fixpoint quoteUnits (s : jsstring) : jsstring :=
  match s with
  | [] => []
  | c :: rest =>
      match rest with
      | d :: rest' =>
          if isHighSurrogate c && isLowSurrogate d
          then c :: d :: quoteUnits rest'
          else quoteUnit c ++ quoteUnits rest
      | [] => quoteUnit c
      end
  end.

(** QuoteJSONString *)
Definition quoteJSONString (s : jsstring) : jsstring :=
  [0x22] ++ quoteUnits s ++ [0x22].

(** [JSON.stringify] on the bodies the server sends: members in insertion
    order, no white space. *)
Fixpoint stringify (j : Json) : jsstring :=
  match j with
  | JsonBool true => lit "true"
  | JsonBool false => lit "false"
  | JsonString s => quoteJSONString s
  | JsonObject members =>
      let fix go (ms : list (jsstring * Json)) : jsstring :=
        match ms with
        | [] => []
        | (k, v) :: rest =>
            quoteJSONString k ++ [0x3A] ++ stringify v
            ++ match rest with
               | [] => []
               | _ :: _ => [0x2C] ++ go rest
               end
        end in
      [0x7B] ++ go members ++ [0x7D]
  end.

(** [res.status(code).json(body)] *)
Record Response : Type := mkResponse {
  status : nat;
  body : Json
}.

(** The text on the wire. *)
Definition bodyText (r : Response) : jsstring := stringify (body r).

(** Member of a JSON object, when there is one. *)
Definition member (j : Json) (k : jsstring) : option Json :=
  match j with
  | JsonObject ms => snd <$> List.find (fun kv => str_eq (fst kv) k) ms
  | _ => None
  end.

Definition memberNames (j : Json) : list jsstring :=
  match j with
  | JsonObject ms => fst <$> ms
  | _ => []
  end.

Local Close Scope N_scope.

(** ** The login endpoint *)

(** A record of the credential table: [{ email, password, username }]. *)
Module Cred.
Record t : Type := mk {
  email : jsstring;
  password : jsstring;
  username : jsstring
}.
End Cred.

(** [new Map([...])]: the entries in insertion order. *)
Definition validCredentials : list (jsstring * Cred.t) :=
  [ (lit "demo@example.com",
      Cred.mk (lit "demo@example.com") (lit "password123") (lit "demo"));
    (lit "admin@example.com",
      Cred.mk (lit "admin@example.com") (lit "admin123") (lit "admin"));
    (lit "test",
      Cred.mk (lit "test@example.com") (lit "test123") (lit "test"));
    (lit "demo",
      Cred.mk (lit "demo@example.com") (lit "password123") (lit "demo"));
    (lit "admin",
      Cred.mk (lit "admin@example.com") (lit "admin123") (lit "admin")) ].

(** [map.get(key)]; [None] is [undefined]. *)
Fixpoint Map_get {V : Type} (entries : list (jsstring * V)) (key : jsstring)
  : option V :=
  match entries with
  | [] => None
  | (k, v) :: rest => if str_eq k key then Some v else Map_get rest key
  end.

(** The [for ... of map.entries()] loop: the first record, in insertion
    order, whose email or username is the identifier and whose password
    is the submitted one; the loop stops there ([break]). *)
Fixpoint scanEntries (entries : list (jsstring * Cred.t))
    (sanitizedEmail sanitizedPassword : jsstring) : option Cred.t :=
  match entries with
  | [] => None
  | (_, cred) :: rest =>
      if (str_eq (Cred.email cred) sanitizedEmail
          || str_eq (Cred.username cred) sanitizedEmail)
         && str_eq (Cred.password cred) sanitizedPassword
      then Some cred
      else scanEntries rest sanitizedEmail sanitizedPassword
  end.

(** [matchedUser] after the look-up: by key first, by the scan when the
    key misses; [None] is [null]. *)
Definition matchUser (table : list (jsstring * Cred.t))
    (sanitizedEmail sanitizedPassword : jsstring) : option Cred.t :=
  match Map_get table sanitizedEmail with
  | None => scanEntries table sanitizedEmail sanitizedPassword
  | Some user =>
      if str_eq (Cred.password user) sanitizedPassword then Some user else None
  end.

(** The failure bodies [{ success: false, message, field }]. *)
Definition failure (code : nat) (message field : string) : Response :=
  mkResponse code
    (JsonObject [ (lit "success", JsonBool false);
                  (lit "message", JsonString (lit message));
                  (lit "field", JsonString (lit field)) ]).

(** The success body; [res.json] without [res.status] answers 200. *)
Definition loginSuccessful (matchedUser : Cred.t) (rememberMe : JsValue)
  : Response :=
  mkResponse 200
    (JsonObject
       [ (lit "success", JsonBool true);
         (lit "message", JsonString (lit "Login successful!"));
         (lit "user",
           JsonObject
             [ (lit "email", JsonString (Cred.email matchedUser));
               (lit "username", JsonString (Cred.username matchedUser));
               (lit "rememberMe", JsonBool (truthy rememberMe)) ]) ]).

(** The body of the [try] block, after the members of [req.body] were
    read.  The randomised [setTimeout] delay before the answer changes
    when the response is sent, not what it is, and is left out. *)
Definition checkLogin (email password rememberMe : JsValue) : Response :=
  if negb (truthy email) || negb (truthy password) then
    failure 400 "Email/username and password are required"
      (if negb (truthy email) then "email" else "password")
  else
    let sanitizedEmail := sanitizeInput email in
    let sanitizedPassword := sanitizeInput password in
    if negb (truthy (JStr sanitizedEmail))
       || (length sanitizedEmail <? 3) then
      failure 400 "Email/username must be at least 3 characters" "email"
    else if negb (truthy (JStr sanitizedPassword))
            || (length sanitizedPassword <? 6) then
      failure 400 "Password must be at least 6 characters" "password"
    else if (100 <? length sanitizedEmail)
            || (100 <? length sanitizedPassword) then
      failure 400 "Input too long"
        (if (100 <? length sanitizedEmail) then "email" else "password")
    else
      match matchUser validCredentials sanitizedEmail sanitizedPassword with
      | Some matchedUser => loginSuccessful matchedUser rememberMe
      | None => failure 401 "Invalid email/username or password" "email"
      end.

(** [const { email, password, rememberMe } = req.body] and what follows;
    [None] is a thrown exception. *)
Definition tryLogin (req_body : JsValue) : option Response :=
  email ← getMember req_body (lit "email");
  password ← getMember req_body (lit "password");
  rememberMe ← getMember req_body (lit "rememberMe");
  Some (checkLogin email password rememberMe).

(** The handler of [POST /api/login]: the [try] block, and the [catch]
    branch that answers 500. *)
Definition loginHandler (req_body : JsValue) : Response :=
  match tryLogin req_body with
  | Some response => response
  | None => failure 500 "Internal server error. Please try again later." "email"
  end.

(** A request body with the three members, as the form sends it. *)
Definition loginBody (email password rememberMe : JsValue) : JsValue :=
  JObj [ (lit "email", email); (lit "password", password);
         (lit "rememberMe", rememberMe) ].

(** ** The rate limiter in front of the handler *)

(** The options given to [rateLimit] for [loginLimiter]. *)
Module LoginLimiter.
Definition windowMs : Z := 15 * 60 * 1000.
Definition max : nat := 5.
Definition skipSuccessfulRequests : bool := true.
Definition message : Response :=
  failure 429 "Too many login attempts. Please try again after 15 minutes."
    "email".
End LoginLimiter.

(** One request to [POST /api/login]: its arrival time in milliseconds,
    its source address and its parsed body. *)
Record Attempt : Type := mkAttempt {
  at_time : Z;
  at_addr : jsstring;
  at_body : JsValue
}.

(** The limiter's store: for every source address, the arrival times of
    the attempts that count against its quota, newest first. *)
Abbreviation LimiterStore := (gmap jsstring (list Z)).

Definition hitsOf (store : LimiterStore) (addr : jsstring) : list Z :=
  default [] (store !! addr).

(** The counted attempts that are still inside the window ending at [now]. *)
Definition recentHits (now : Z) (hits : list Z) : list Z :=
  filter (λ t, (now - LoginLimiter.windowMs < t)%Z) hits.

(** Modelled from the spec: the middleware built by [rateLimit] comes from
    the express-rate-limit package, which is not part of the sources; only
    the options above are.  Section 4.2 of the specification is followed:
    a window of [windowMs] per source address sliding with the clock, at
    most [max] attempts inside it, an attempt answered with a success
    status not counted, and the configured [message] sent with status 429
    once the quota is used up.  An attempt that is turned away does not
    reach the handler and is not recorded. *)
Definition postLogin (store : LimiterStore) (a : Attempt)
  : LimiterStore * Response :=
  let hits := hitsOf store (at_addr a) in
  if decide (LoginLimiter.max ≤ length (recentHits (at_time a) hits))
  then (store, LoginLimiter.message)
  else
    let response := loginHandler (at_body a) in
    if LoginLimiter.skipSuccessfulRequests && (status response <? 400)
    then (store, response)
    else (<[at_addr a := at_time a :: hits]> store, response).

(** The server answering a sequence of attempts in arrival order. *)
Fixpoint serve (store : LimiterStore) (attempts : list Attempt)
  : LimiterStore * list Response :=
  match attempts with
  | [] => (store, [])
  | a :: rest =>
      let '(store1, response) := postLogin store a in
      let '(store2, responses) := serve store1 rest in
      (store2, response :: responses)
  end.

(** An attempt that reached the handler and was answered with a failure:
    the ones that use up the quota. *)
Definition counted (response : Response) : bool :=
  negb (status response =? 429) && negb (status response <? 400).

(** ** Vocabulary of the statements *)

(** A field is absent when [!v] holds: the member is missing
    ([undefined]), empty ([''] ), or another falsy value ([null], [false],
    [0], [NaN]). *)
Definition absent (v : JsValue) : Prop := truthy v = false.

(** The request carries the three members the handler reads. *)
Definition hasMembers (req_body email password rememberMe : JsValue) : Prop :=
  getMember req_body (lit "email") = Some email
  ∧ getMember req_body (lit "password") = Some password
  ∧ getMember req_body (lit "rememberMe") = Some rememberMe.

(** The single look-up the specification asks for: the first record
    whose email or username is the identifier and whose password is the
    submitted one ([records.find(...)]). *)
Definition uniformLookup (records : list Cred.t)
    (identifier password : jsstring) : option Cred.t :=
  List.find
    (fun cred =>
       (str_eq (Cred.email cred) identifier
        || str_eq (Cred.username cred) identifier)
       && str_eq (Cred.password cred) password)
    records.

(** The records of the credential table, one per entry. *)
Definition credentialRecords : list Cred.t := snd <$> validCredentials.

(** The identifier names an account of the table: it is a key of the
    [Map], or the email or the username of a record. *)
Definition knownIdentifier (identifier : jsstring) : bool :=
  existsb
    (fun entry =>
       str_eq (fst entry) identifier
       || str_eq (Cred.email (snd entry)) identifier
       || str_eq (Cred.username (snd entry)) identifier)
    validCredentials.

(** No record that goes by the identifier has this password. *)
Definition wrongPassword (identifier password : jsstring) : bool :=
  forallb
    (fun cred =>
       negb ((str_eq (Cred.email cred) identifier
              || str_eq (Cred.username cred) identifier)
             && str_eq (Cred.password cred) password))
    credentialRecords.

(** The request gets past every check in front of the look-up. *)
Definition passesValidation (email password : JsValue) : bool :=
  truthy email && truthy password
  && (3 <=? length (sanitizeInput email))
  && (length (sanitizeInput email) <=? 100)
  && (6 <=? length (sanitizeInput password))
  && (length (sanitizeInput password) <=? 100).

(** Every code unit of the string is white space. *)
Definition allWhiteSpace (s : jsstring) : Prop :=
  Forall (λ c, isWhiteSpace c = true) s.

(** The failure answers of the handler, in source order. *)
Definition handlerFailures : list Response :=
  [ failure 400 "Email/username and password are required" "email";
    failure 400 "Email/username and password are required" "password";
    failure 400 "Email/username must be at least 3 characters" "email";
    failure 400 "Password must be at least 6 characters" "password";
    failure 400 "Input too long" "email";
    failure 400 "Input too long" "password";
    failure 401 "Invalid email/username or password" "email";
    failure 500 "Internal server error. Please try again later." "email" ].

(** All failure answers of the route: the handler's and the limiter's. *)
Definition failureResponses : list Response :=
  handlerFailures ++ [LoginLimiter.message].

(** The success answers: one per record and truth value of [rememberMe]. *)
Definition successResponses : list Response :=
  cred ← credentialRecords;
  [loginSuccessful cred (JBool true); loginSuccessful cred (JBool false)].

(** The body text holds none of the stored passwords. *)
Definition hidesStoredPasswords (response : Response) : bool :=
  forallb (fun cred => negb (includes (bodyText response) (Cred.password cred)))
    credentialRecords.

Definition angleFree (s : jsstring) : bool :=
  forallb (fun c => negb (isAngle c)) s.

(** The arrival times of the attempts from [addr] that were counted, in
    arrival order; an outcome pairs an attempt with its response. *)
Definition hitsIn (addr : jsstring) (outcomes : list (Attempt * Response))
  : list Z :=
  (λ ar, at_time ar.1)
    <$> filter (λ ar, at_addr ar.1 = addr ∧ counted ar.2 = true) outcomes.

(** Every recorded attempt found fewer than [max] recorded attempts inside
    its own window when it arrived. *)
Fixpoint quotaLog (hits : list Z) : Prop :=
  match hits with
  | [] => True
  | t :: older =>
      (length (recentHits t older) < LoginLimiter.max) ∧ quotaLog older
  end.

(** The attempt arrived in the window of length [windowMs] that ends at [T]. *)
Definition inWindow (T t : Z) : Prop :=
  (T - LoginLimiter.windowMs < t ≤ T)%Z.

(** ** The validation helpers of the server *)

(** The regular expressions of the helpers are sequences of items
    between [^] and [$]: one given character, or a character class
    repeated between [min] and [max] times ([None]: no upper bound, as
    for [+]). *)
Inductive RegexItem : Type :=
| RChar (c : N)
| RClass (cls : N → bool) (min : nat) (max : option nat).

Definition belowMax (taken : nat) (max : option nat) : bool :=
  match max with
  | None => true
  | Some m => taken <? m
  end.

(** The repetition of a class: take one more character when the class
    and the bound allow it, and fall back to the rest of the expression
    (the continuation [k]) once [min] characters are taken. *)
Fixpoint takeClass (cls : N → bool) (min : nat) (max : option nat)
    (k : jsstring → bool) (taken : nat) (s : jsstring) : bool :=
  match s with
  | c :: rest =>
      (cls c && belowMax taken max && takeClass cls min max k (S taken) rest)
      || ((min <=? taken) && k s)
  | [] => (min <=? taken) && k []
  end.

(** [regex.test(s)] for an expression anchored at both ends. *)
Fixpoint regexTest (items : list RegexItem) {struct items} : jsstring → bool :=
  match items with
  | [] => fun s => match s with [] => true | _ :: _ => false end
  | RChar c :: rest =>
      fun s =>
        match s with
        | x :: s' => (x =? c)%N && regexTest rest s'
        | [] => false
        end
  | RClass cls min max :: rest => takeClass cls min max (regexTest rest) 0
  end.

(** The class [[^\s@]]. *)
Definition notSpaceOrAt (c : N) : bool :=
  negb (isWhiteSpace c) && negb (c =? 0x40)%N.

(** The class [[a-zA-Z0-9_-]]. *)
Definition usernameChar (c : N) : bool :=
  ((0x61 <=? c) && (c <=? 0x7A))%N || ((0x41 <=? c) && (c <=? 0x5A))%N
  || ((0x30 <=? c) && (c <=? 0x39))%N || (c =? 0x5F)%N || (c =? 0x2D)%N.

(** [/^[^\s@]+@[^\s@]+\.[^\s@]+$/] *)
Definition emailRegex : list RegexItem :=
  [ RClass notSpaceOrAt 1 None; RChar 0x40%N; RClass notSpaceOrAt 1 None;
    RChar 0x2E%N; RClass notSpaceOrAt 1 None ].

(** [/^[a-zA-Z0-9_-]{3,20}$/] *)
Definition usernameRegex : list RegexItem :=
  [ RClass usernameChar 3 (Some 20) ].

(** [isValidEmail] of the server. *)
Definition isValidEmail (email : JsValue) : bool :=
  if negb (truthy email) || notString email then false
  else match email with
       | JStr s => regexTest emailRegex (trim s)
       | _ => false
       end.

(** [isValidUsername] *)
Definition isValidUsername (username : JsValue) : bool :=
  if negb (truthy username) || notString username then false
  else match username with
       | JStr s => regexTest usernameRegex (trim s)
       | _ => false
       end.

(** ** The form controller ([Frontend/script.js]) *)

Module Client.

(** [isValidEmail] of the form: the same expression, on the value as it
    is. *)
Definition isValidEmail (email : jsstring) : bool :=
  regexTest emailRegex email.

(** A call [showFieldError(fieldName, message)]. *)
Inductive Shown : Type :=
| showFieldError (fieldName message : string).

(** [validateForm] on the values of the two inputs: the verdict, and the
    calls of [showFieldError] it makes, in order. *)
Definition validateForm (email password : jsstring) : bool * list Shown :=
  let '(isValid, shown) :=
    if negb (truthy (JStr email)) then
      (false, [showFieldError "email" "Email or username is required"])
    else if negb (isValidEmail email) && (length email <? 3) then
      (false,
       [showFieldError "email"
          "Please enter a valid email or username (min 3 characters)"])
    else (true, []) in
  if negb (truthy (JStr password)) then
    (false, shown ++ [showFieldError "password" "Password is required"])
  else if length password <? 6 then
    (false,
     shown ++ [showFieldError "password"
                 "Password must be at least 6 characters"])
  else (isValid, shown).

End Client.

(** ** The first version of the server ([my-first-fullstack/Backend]) *)

Module FirstVersion.

(** The credential array of the first version. *)
Definition validCredentials : list Cred.t :=
  [ Cred.mk (lit "demo@example.com") (lit "password123") (lit "demo");
    Cred.mk (lit "admin@example.com") (lit "admin123") (lit "admin");
    Cred.mk (lit "test") (lit "test123") (lit "test") ].

(** [s === v] for a string [s] of the table and a request value [v]. *)
Definition strictEq (s : jsstring) (v : JsValue) : bool :=
  match v with
  | JStr t => str_eq s t
  | _ => false
  end.

(** [validCredentials.find(cred => ...)] *)
Definition findUser (email password : JsValue) : option Cred.t :=
  List.find
    (fun cred =>
       (strictEq (Cred.email cred) email || strictEq (Cred.username cred) email)
       && strictEq (Cred.password cred) password)
    validCredentials.

(** What the first version sends: a failure [{ success: false, message,
    field }] with its status, or the success body, whose [rememberMe]
    member is a request value. *)
Inductive Answer : Type :=
| Failure (code : nat) (message field : string)
| LoggedIn (email username : jsstring) (rememberMe : JsValue).

Definition statusOf (a : Answer) : nat :=
  match a with
  | Failure code _ _ => code
  | LoggedIn _ _ _ => 200
  end.

(** [password.length < 6].  A string and an array have their length; a
    boolean and a number have no [length], and [undefined < 6] is false;
    reading [length] off [undefined] or [null] throws.  For an object the
    [length] member is any request value, compared with 6 through
    ToPrimitive and ToNumber: that comparison is the parameter
    [lessThan6], [None] when it throws. *)
Definition lengthBelow6 (lessThan6 : JsValue → option bool)
    (password : JsValue) : option bool :=
  match password with
  | JStr s => Some (length s <? 6)
  | JArr items => Some (length items <? 6)
  | JBool _ | JNum _ => Some false
  | JObj props => lessThan6 (getOwn props (lit "length"))
  | JUndefined | JNull => None
  end.

(** The handler of [POST /api/login] in the first version; [None] is an
    exception, which this version does not catch. *)
Definition login (lessThan6 : JsValue → option bool) (req_body : JsValue)
  : option Answer :=
  email ← getMember req_body (lit "email");
  password ← getMember req_body (lit "password");
  rememberMe ← getMember req_body (lit "rememberMe");
  if negb (truthy email) || negb (truthy password) then
    Some (Failure 400 "Email/username and password are required"
            (if negb (truthy email) then "email" else "password"))
  else
    short ← lengthBelow6 lessThan6 password;
    if short : bool then
      Some (Failure 400 "Password must be at least 6 characters" "password")
    else
      match findUser email password with
      | Some user =>
          Some (LoggedIn (Cred.email user) (Cred.username user)
                  (if truthy rememberMe then rememberMe else JBool false))
      | None => Some (Failure 401 "Invalid email/username or password" "email")
      end.

End FirstVersion.

(** ** More vocabulary *)

#[global] Instance Cred_eq_dec : EqDecision Cred.t.
Proof. solve_decision. Defined.

(** The record goes by the identifier: it is its email or its username. *)
Definition goesBy (cred : Cred.t) (identifier : jsstring) : Prop :=
  Cred.email cred = identifier ∨ Cred.username cred = identifier.

(** Every key of the table is the email or the username of its record. *)
Definition keysAreAliases (table : list (jsstring * Cred.t)) : Prop :=
  ∀ key cred, (key, cred) ∈ table → goesBy cred key.

(** Two records of the table that go by a common identifier are the same
    record. *)
Definition aliasesAgree (table : list (jsstring * Cred.t)) : Prop :=
  ∀ cred1 cred2 identifier,
    cred1 ∈ snd <$> table → cred2 ∈ snd <$> table →
    goesBy cred1 identifier → goesBy cred2 identifier → cred1 = cred2.

(** What an anchored expression accepts: the string splits into one
    part per item. *)
Fixpoint regexAccepts (items : list RegexItem) (s : jsstring) : Prop :=
  match items with
  | [] => s = []
  | RChar c :: rest => ∃ s', s = c :: s' ∧ regexAccepts rest s'
  | RClass cls min max :: rest =>
      ∃ a b, s = a ++ b
             ∧ Forall (λ c, cls c = true) a
             ∧ min ≤ length a
             ∧ (∀ m, max = Some m → length a ≤ m)
             ∧ regexAccepts rest b
  end.

(** A string of the shape [local@domain.tld]: three non-empty parts
    without white space and without [@]. *)
Definition emailShaped (s : jsstring) : Prop :=
  ∃ loc domain tld,
    s = loc ++ [0x40%N] ++ domain ++ [0x2E%N] ++ tld
    ∧ loc ≠ [] ∧ domain ≠ [] ∧ tld ≠ []
    ∧ Forall (λ c, notSpaceOrAt c = true) (loc ++ domain ++ tld).

(** The field a call of [showFieldError] marks. *)
Definition shownField (call : Client.Shown) : string :=
  match call with
  | Client.showFieldError fieldName _ => fieldName
  end.

(** * Properties *)

(** ** Strings *)

Lemma str_eq_true (s t : jsstring) : str_eq s t = true ↔ s = t.
Proof. unfold str_eq. apply bool_decide_eq_true. Qed.

Lemma str_eq_false (s t : jsstring) : str_eq s t = false ↔ s ≠ t.
Proof. unfold str_eq. apply bool_decide_eq_false. Qed.

Lemma str_eq_refl (s : jsstring) : str_eq s s = true.
Proof. by apply str_eq_true. Qed.

(** ** The handler after destructuring *)

Lemma loginHandler_members req_body email password rememberMe :
  hasMembers req_body email password rememberMe →
  loginHandler req_body = checkLogin email password rememberMe.
Proof.
  intros (He & Hp & Hr). unfold loginHandler, tryLogin.
  by rewrite He, Hp, Hr.
Qed.

Lemma loginBody_members email password rememberMe :
  hasMembers (loginBody email password rememberMe) email password rememberMe.
Proof. by repeat split. Qed.

(** A body that is [undefined] or [null] makes the destructuring throw;
    the [catch] branch answers 500. *)
Lemma loginHandler_no_body req_body :
  req_body = JUndefined ∨ req_body = JNull →
  loginHandler req_body
  = failure 500 "Internal server error. Please try again later." "email".
Proof. by intros [-> | ->]. Qed.

(** C1: identifier "demo" with password "password123" is answered 200 with
    [success: true] and a [user] object whose members are exactly [email],
    [username] and [rememberMe], with [username] "demo" and no [password]. *)
Theorem demo_login_succeeds req_body rememberMe :
  hasMembers req_body (JStr (lit "demo")) (JStr (lit "password123")) rememberMe →
  let response := loginHandler req_body in
  status response = 200
  ∧ member (body response) (lit "success") = Some (JsonBool true)
  ∧ ∃ user,
      member (body response) (lit "user") = Some user
      ∧ user = JsonObject [ (lit "email", JsonString (lit "demo@example.com"));
                            (lit "username", JsonString (lit "demo"));
                            (lit "rememberMe", JsonBool (truthy rememberMe)) ]
      ∧ memberNames user = [lit "email"; lit "username"; lit "rememberMe"]
      ∧ member user (lit "username") = Some (JsonString (lit "demo"))
      ∧ member user (lit "password") = None.
Proof.
  intros Hm response. subst response.
  rewrite (loginHandler_members _ _ _ _ Hm).
  repeat split.
  eexists. repeat split.
Qed.

Lemma demo_login_succeeds_witness :
  status (loginHandler (loginBody (JStr (lit "demo")) (JStr (lit "password123"))
                          (JBool true))) = 200.
Proof.
  apply (demo_login_succeeds _ (JBool true)), loginBody_members.
Defined.

(** C4: when the identifier is absent the answer is 400 naming [email]
    (whatever the password is); when only the password is absent it is 400
    naming [password].  A missing member and the empty string are absent. *)
Theorem required_fields_named req_body email password rememberMe :
  hasMembers req_body email password rememberMe →
  (absent email →
     loginHandler req_body
     = failure 400 "Email/username and password are required" "email")
  ∧ (¬ absent email → absent password →
     loginHandler req_body
     = failure 400 "Email/username and password are required" "password")
  ∧ absent JUndefined ∧ absent (JStr []).
Proof.
  intros Hm. rewrite (loginHandler_members _ _ _ _ Hm).
  unfold absent, checkLogin. repeat split.
  - by intros ->.
  - intros He ->. by destruct (truthy email).
Qed.

Lemma required_fields_named_witness :
  loginHandler (loginBody JUndefined (JStr []) JUndefined)
  = failure 400 "Email/username and password are required" "email"
  ∧ loginHandler (loginBody (JStr (lit "demo")) JUndefined JUndefined)
    = failure 400 "Email/username and password are required" "password".
Proof.
  split.
  - apply (required_fields_named _ _ _ _ (loginBody_members _ _ _)).
    reflexivity.
  - apply (required_fields_named _ _ _ _ (loginBody_members _ _ _)).
    + unfold absent. vm_compute. discriminate.
    + reflexivity.
Defined.

(** ** Length checks *)

Lemma sanitizeInput_notString v : notString v = true → sanitizeInput v = [].
Proof. by destruct v. Qed.

Lemma not_absent v : ¬ absent v ↔ truthy v = true.
Proof. unfold absent. by destruct (truthy v). Qed.

(** C5: with both fields present, a sanitised identifier shorter than 3
    code units is answered 400 naming [email]; otherwise a sanitised
    password shorter than 6 is answered 400 naming [password]. *)
Theorem minimum_lengths_enforced req_body email password rememberMe :
  hasMembers req_body email password rememberMe →
  ¬ absent email → ¬ absent password →
  (length (sanitizeInput email) < 3 →
     loginHandler req_body
     = failure 400 "Email/username must be at least 3 characters" "email")
  ∧ (3 ≤ length (sanitizeInput email) →
     length (sanitizeInput password) < 6 →
     loginHandler req_body
     = failure 400 "Password must be at least 6 characters" "password").
Proof.
  intros Hm He%not_absent Hp%not_absent.
  rewrite (loginHandler_members _ _ _ _ Hm). unfold checkLogin.
  rewrite He, Hp. cbn [negb orb]. split.
  - intros Hlen. apply Nat.ltb_lt in Hlen. rewrite Hlen.
    by rewrite orb_true_r.
  - intros Hlen3 Hlen6.
    assert (sanitizeInput email ≠ []) as Hne by (intros E; rewrite E in Hlen3; simpl in Hlen3; lia).
    cbn [truthy]. rewrite (bool_decide_eq_false_2 _ Hne).
    apply Nat.ltb_ge in Hlen3. rewrite Hlen3. cbn [negb orb].
    apply Nat.ltb_lt in Hlen6. rewrite Hlen6.
    by rewrite orb_true_r.
Qed.

Lemma minimum_lengths_enforced_witness :
  loginHandler (loginBody (JStr (lit " <a>b ")) (JStr (lit "password123")) JNull)
  = failure 400 "Email/username must be at least 3 characters" "email"
  ∧ loginHandler (loginBody (JStr (lit "demo")) (JStr (lit "  pass> ")) JNull)
    = failure 400 "Password must be at least 6 characters" "password".
Proof.
  split.
  - apply (minimum_lengths_enforced _ _ _ _ (loginBody_members _ _ _)).
    + unfold absent. vm_compute. discriminate.
    + unfold absent. vm_compute. discriminate.
    + vm_compute. lia.
  - apply (minimum_lengths_enforced _ _ _ _ (loginBody_members _ _ _)).
    + unfold absent. vm_compute. discriminate.
    + unfold absent. vm_compute. discriminate.
    + vm_compute. lia.
    + vm_compute. lia.
Defined.

(** Every answer of the handler before the look-up is a 400. *)
Lemma status_failure code message field : status (failure code message field) = code.
Proof. reflexivity. Qed.

Lemma success_failure code message field :
  member (body (failure code message field)) (lit "success")
  = Some (JsonBool false).
Proof. reflexivity. Qed.

(** C6: a field longer than 100 code units after sanitisation is answered
    400, whatever the other field is and whether or not the credentials
    would match. *)
Theorem oversized_input_rejected req_body email password rememberMe :
  hasMembers req_body email password rememberMe →
  (100 < length (sanitizeInput email)
   ∨ 100 < length (sanitizeInput password)) →
  status (loginHandler req_body) = 400
  ∧ member (body (loginHandler req_body)) (lit "success") = Some (JsonBool false).
Proof.
  intros Hm Hlong.
  rewrite (loginHandler_members _ _ _ _ Hm). unfold checkLogin.
  repeat match goal with
         | |- context [if ?c then _ else _] =>
             let E := fresh "E" in destruct c eqn:E
         end;
    rewrite ?status_failure, ?success_failure; try done.
  all: apply orb_false_elim in E2 as [E2 E3];
    apply Nat.ltb_ge in E2, E3; lia.
Qed.

Lemma oversized_input_rejected_witness :
  status (loginHandler (loginBody (JStr (lit "demo"))
            (JStr (lit "password123" ++ replicate 90 0x21%N)) JUndefined))
  = 400.
Proof.
  apply (oversized_input_rejected _ _ _ _ (loginBody_members _ _ _)).
  right. vm_compute. lia.
Defined.

(** C10: a truthy value that is not a string, in either field, is never
    answered with success: the answer is a 400, and once both fields are
    present it is one of the two minimum-length rejections, so the
    credential table is not consulted. *)
Theorem non_string_rejected req_body email password rememberMe :
  hasMembers req_body email password rememberMe →
  (¬ absent email ∧ notString email = true)
  ∨ (¬ absent password ∧ notString password = true) →
  status (loginHandler req_body) = 400
  ∧ member (body (loginHandler req_body)) (lit "success") = Some (JsonBool false)
  ∧ (¬ absent email → ¬ absent password →
     loginHandler req_body
     = failure 400 "Email/username must be at least 3 characters" "email"
     ∨ loginHandler req_body
       = failure 400 "Password must be at least 6 characters" "password").
Proof.
  intros Hm Hns.
  rewrite (loginHandler_members _ _ _ _ Hm). unfold checkLogin.
  destruct Hns as [[He%not_absent Hs] | [Hp%not_absent Hs]];
    rewrite (sanitizeInput_notString _ Hs).
  - rewrite He. destruct (truthy password) eqn:Hp; cbn.
    + repeat split. by left.
    + repeat split. intros _ Habs. by destruct Habs.
  - rewrite Hp. destruct (truthy email) eqn:He; cbn [negb orb].
    + destruct (negb (truthy (JStr (sanitizeInput email)))
                || (length (sanitizeInput email) <? 3)); cbn.
      * repeat split. by left.
      * repeat split. by right.
    + repeat split. intros Habs. by destruct Habs.
Qed.

Lemma non_string_rejected_witness :
  status (loginHandler (loginBody (JStr (lit "demo"))
            (JArr [JStr (lit "password123")]) JUndefined))
  = 400.
Proof.
  apply (non_string_rejected _ _ _ _ (loginBody_members _ _ _)).
  right. split; [unfold absent; vm_compute; discriminate | reflexivity].
Defined.

(** ** The credential look-up *)

(** Decides one string comparison of the goal: from a hypothesis when a
    side is a variable, by evaluation when both sides are literals. *)
Ltac str_eq_step :=
  match goal with
  | |- context [str_eq ?a ?b] =>
      first
        [ rewrite (proj2 (str_eq_false a b))
            by (assumption || (apply not_eq_sym; assumption))
        | let v := eval vm_compute in (str_eq a b) in
          match v with
          | true => change (str_eq a b) with true
          | false => change (str_eq a b) with false
          end ];
      cbn [andb orb]
  end.

Ltac unfold_lookups :=
  unfold matchUser, uniformLookup, credentialRecords, validCredentials;
  cbn [Map_get scanEntries List.find fmap list_fmap snd
       Cred.email Cred.username Cred.password].

Ltac split_on x c := destruct (decide (x = lit c)) as [-> | ?].

Lemma matchUser_uniformLookup (sanitizedEmail sanitizedPassword : jsstring) :
  matchUser validCredentials sanitizedEmail sanitizedPassword
  = uniformLookup credentialRecords sanitizedEmail sanitizedPassword.
Proof.
  split_on sanitizedEmail "demo@example.com";
    [| split_on sanitizedEmail "admin@example.com";
       [| split_on sanitizedEmail "test";
          [| split_on sanitizedEmail "demo";
             [| split_on sanitizedEmail "admin";
                [| split_on sanitizedEmail "test@example.com" ]]]]].
  all: split_on sanitizedPassword "password123";
    [| split_on sanitizedPassword "admin123";
       [| split_on sanitizedPassword "test123" ]].
  all: unfold_lookups; repeat str_eq_step; reflexivity.
Qed.

(** C8: on the credential table, the look-up by key with its fall-back
    scan gives the same verdict and the same record as the single uniform
    look-up by email or username and password. *)
Theorem two_path_lookup_is_uniform (sanitizedEmail sanitizedPassword : jsstring) :
  matchUser validCredentials sanitizedEmail sanitizedPassword
  = uniformLookup credentialRecords sanitizedEmail sanitizedPassword
  ∧ (is_Some (matchUser validCredentials sanitizedEmail sanitizedPassword)
     ↔ is_Some (uniformLookup credentialRecords sanitizedEmail sanitizedPassword)).
Proof.
  split; [apply matchUser_uniformLookup | by rewrite matchUser_uniformLookup].
Qed.

Lemma find_all_false {A} (f : A → bool) (l : list A) :
  forallb (fun x => negb (f x)) l = true → List.find f l = None.
Proof.
  induction l as [| x l IH]; [done |]. cbn.
  intros [Hx Hl]%andb_prop. apply negb_true_iff in Hx. rewrite Hx. auto.
Qed.

Lemma matchUser_Some sanitizedEmail sanitizedPassword cred :
  matchUser validCredentials sanitizedEmail sanitizedPassword = Some cred →
  cred ∈ credentialRecords
  ∧ (Cred.email cred = sanitizedEmail ∨ Cred.username cred = sanitizedEmail)
  ∧ Cred.password cred = sanitizedPassword.
Proof.
  rewrite matchUser_uniformLookup. unfold uniformLookup.
  intros [Hin Hf]%List.find_some.
  apply andb_prop in Hf as [Hal Hpw].
  apply orb_prop in Hal. rewrite !str_eq_true in Hal.
  apply str_eq_true in Hpw.
  by rewrite list_elem_of_In.
Qed.

Lemma matchUser_wrongPassword sanitizedEmail sanitizedPassword :
  wrongPassword sanitizedEmail sanitizedPassword = true →
  matchUser validCredentials sanitizedEmail sanitizedPassword = None.
Proof.
  rewrite matchUser_uniformLookup. apply find_all_false.
Qed.

Lemma unknown_wrongPassword identifier password :
  knownIdentifier identifier = false → wrongPassword identifier password = true.
Proof.
  unfold knownIdentifier, wrongPassword, credentialRecords, validCredentials.
  cbn [existsb forallb fmap list_fmap fst snd
       Cred.email Cred.username Cred.password].
  intros H.
  repeat match goal with
         | E : _ || _ = false |- _ => apply orb_false_elim in E as [? ?]
         end.
  repeat match goal with
         | E : str_eq ?a ?b = false |- context [str_eq ?a ?b] => rewrite E
         end.
  reflexivity.
Qed.

(** ** The answers after validation *)

Lemma checkLogin_validated email password rememberMe :
  passesValidation email password = true →
  checkLogin email password rememberMe
  = match matchUser validCredentials
            (sanitizeInput email) (sanitizeInput password) with
    | Some matchedUser => loginSuccessful matchedUser rememberMe
    | None => failure 401 "Invalid email/username or password" "email"
    end.
Proof.
  unfold passesValidation.
  intros [[[[[He Hp]%andb_prop ?]%andb_prop ?]%andb_prop ?]%andb_prop ?]%andb_prop.
  repeat match goal with
         | E : (_ <=? _) = true |- _ => apply Nat.leb_le in E
         end.
  unfold checkLogin. rewrite He, Hp. cbn [negb orb truthy].
  assert (sanitizeInput email ≠ []) as Hne1
    by (intros E; rewrite E in *; simpl in *; lia).
  assert (sanitizeInput password ≠ []) as Hne2
    by (intros E; rewrite E in *; simpl in *; lia).
  rewrite (bool_decide_eq_false_2 _ Hne1), (bool_decide_eq_false_2 _ Hne2).
  cbn [negb orb].
  rewrite (proj2 (Nat.ltb_ge (length (sanitizeInput email)) 3)) by lia.
  rewrite (proj2 (Nat.ltb_ge (length (sanitizeInput password)) 6)) by lia.
  rewrite (proj2 (Nat.ltb_ge 100 (length (sanitizeInput email)))) by lia.
  rewrite (proj2 (Nat.ltb_ge 100 (length (sanitizeInput password)))) by lia.
  reflexivity.
Qed.

(** C2: two requests that pass validation, one naming an identifier the
    table does not know and one naming a known identifier with a wrong
    password, get the same answer: 401 with the one generic message. *)
Theorem invalid_credentials_indistinguishable
    req_body1 email1 password1 rememberMe1
    req_body2 email2 password2 rememberMe2 :
  hasMembers req_body1 email1 password1 rememberMe1 →
  hasMembers req_body2 email2 password2 rememberMe2 →
  passesValidation email1 password1 = true →
  passesValidation email2 password2 = true →
  knownIdentifier (sanitizeInput email1) = false →
  knownIdentifier (sanitizeInput email2) = true →
  wrongPassword (sanitizeInput email2) (sanitizeInput password2) = true →
  loginHandler req_body1 = loginHandler req_body2
  ∧ loginHandler req_body1
    = failure 401 "Invalid email/username or password" "email".
Proof.
  intros Hm1 Hm2 Hv1 Hv2 Hunknown _ Hwrong.
  rewrite (loginHandler_members _ _ _ _ Hm1), (loginHandler_members _ _ _ _ Hm2).
  rewrite (checkLogin_validated _ _ _ Hv1), (checkLogin_validated _ _ _ Hv2).
  rewrite (matchUser_wrongPassword _ _ Hwrong).
  rewrite (matchUser_wrongPassword _ _ (unknown_wrongPassword _ _ Hunknown)).
  done.
Qed.

Lemma invalid_credentials_indistinguishable_witness :
  loginHandler (loginBody (JStr (lit "nobody@example.com"))
                  (JStr (lit "password123")) JUndefined)
  = loginHandler (loginBody (JStr (lit "demo@example.com"))
                    (JStr (lit "not-the-password")) (JBool true)).
Proof.
  apply (invalid_credentials_indistinguishable
           _ _ _ _ _ _ _ _
           (loginBody_members (JStr (lit "nobody@example.com"))
              (JStr (lit "password123")) JUndefined)
           (loginBody_members (JStr (lit "demo@example.com"))
              (JStr (lit "not-the-password")) (JBool true)));
    vm_compute; reflexivity.
Defined.

(** ** Sanitisation *)

Lemma trimStart_split s : ∃ pre, s = pre ++ trimStart s ∧ allWhiteSpace pre.
Proof.
  unfold allWhiteSpace.
  induction s as [| c s (pre & Hs & Hpre)]; [by exists [] |].
  cbn. destruct (isWhiteSpace c) eqn:Hc.
  - exists (c :: pre). split; [cbn; by f_equal | by constructor].
  - by exists [].
Qed.

Lemma trimStart_head s c : head (trimStart s) = Some c → isWhiteSpace c = false.
Proof.
  induction s as [| d s IH]; [done |].
  cbn. destruct (isWhiteSpace d) eqn:Hd; [done |].
  cbn. by intros [= <-].
Qed.

Lemma trimEnd_split s : ∃ post, s = trimEnd s ++ post ∧ allWhiteSpace post.
Proof.
  destruct (trimStart_split (reverse s)) as (pre & Hs & Hpre).
  exists (reverse pre). split; [| by apply Forall_reverse].
  unfold trimEnd. by rewrite <- reverse_app, <- Hs, reverse_involutive.
Qed.

Lemma trimEnd_last s c : last (trimEnd s) = Some c → isWhiteSpace c = false.
Proof. unfold trimEnd. rewrite last_reverse. apply trimStart_head. Qed.

Lemma trim_split s :
  ∃ pre post, s = pre ++ trim s ++ post ∧ allWhiteSpace pre ∧ allWhiteSpace post.
Proof.
  destruct (trimStart_split s) as (pre & Hs & Hpre).
  destruct (trimEnd_split (trimStart s)) as (post & Ht & Hpost).
  exists pre, post. unfold trim. by rewrite <- Ht.
Qed.

Lemma trim_head s c : head (trim s) = Some c → isWhiteSpace c = false.
Proof.
  intros Hc. apply (trimStart_head s).
  destruct (trimEnd_split (trimStart s)) as (post & -> & _).
  fold (trim s). by rewrite head_app, Hc.
Qed.

Lemma trim_last s c : last (trim s) = Some c → isWhiteSpace c = false.
Proof. apply trimEnd_last. Qed.

Lemma stripAngles_filter s :
  stripAngles s = filter (λ c, c ≠ 0x3C%N ∧ c ≠ 0x3E%N) s.
Proof.
  unfold stripAngles.
  induction s as [| c s IH]; [done |].
  rewrite filter_cons. cbn [List.filter]. rewrite IH. unfold isAngle.
  destruct (N.eqb_spec c 0x3C), (N.eqb_spec c 0x3E); cbn [orb negb];
    destruct (decide (c ≠ 0x3C%N ∧ c ≠ 0x3E%N)) as [[? ?] | Hn];
    first [done | exfalso; apply Hn; by split].
Qed.

Lemma checkLogin_sanitized email1 password1 rememberMe1
    email2 password2 rememberMe2 :
  ¬ absent email1 → ¬ absent password1 →
  ¬ absent email2 → ¬ absent password2 →
  sanitizeInput email1 = sanitizeInput email2 →
  sanitizeInput password1 = sanitizeInput password2 →
  truthy rememberMe1 = truthy rememberMe2 →
  checkLogin email1 password1 rememberMe1
  = checkLogin email2 password2 rememberMe2.
Proof.
  intros He1%not_absent Hp1%not_absent He2%not_absent Hp2%not_absent Hse Hsp Hr.
  unfold checkLogin, loginSuccessful.
  by rewrite He1, Hp1, He2, Hp2, Hse, Hsp, Hr.
Qed.

(** C7: [sanitizeInput] on a string first trims it (white space, and only
    white space, goes from both ends, up to the first and last character
    that is not white space) and then drops exactly the characters [<] and
    [>]; and once both fields are present the answer is determined by the
    sanitised values (and the truth value of [rememberMe]): the length
    checks and the comparisons see nothing else of the submitted fields. *)
Theorem sanitize_trims_then_strips :
  (∀ s : jsstring,
     (∃ pre post, s = pre ++ trim s ++ post
                  ∧ allWhiteSpace pre ∧ allWhiteSpace post)
     ∧ (∀ c, head (trim s) = Some c → isWhiteSpace c = false)
     ∧ (∀ c, last (trim s) = Some c → isWhiteSpace c = false)
     ∧ sanitizeInput (JStr s) = filter (λ c, c ≠ 0x3C%N ∧ c ≠ 0x3E%N) (trim s))
  ∧ (∀ req_body1 email1 password1 rememberMe1
       req_body2 email2 password2 rememberMe2,
       hasMembers req_body1 email1 password1 rememberMe1 →
       hasMembers req_body2 email2 password2 rememberMe2 →
       ¬ absent email1 → ¬ absent password1 →
       ¬ absent email2 → ¬ absent password2 →
       sanitizeInput email1 = sanitizeInput email2 →
       sanitizeInput password1 = sanitizeInput password2 →
       truthy rememberMe1 = truthy rememberMe2 →
       loginHandler req_body1 = loginHandler req_body2).
Proof.
  split.
  - intros s. repeat split.
    + apply trim_split.
    + apply trim_head.
    + apply trim_last.
    + apply stripAngles_filter.
  - intros b1 e1 p1 r1 b2 e2 p2 r2 Hm1 Hm2 **.
    rewrite (loginHandler_members _ _ _ _ Hm1), (loginHandler_members _ _ _ _ Hm2).
    by apply checkLogin_sanitized.
Qed.

Lemma sanitize_trims_then_strips_witness :
  loginHandler (loginBody (JStr (lit "  <demo>  ")) (JStr (lit "password<>123 "))
                  JUndefined)
  = loginHandler (loginBody (JStr (lit "demo")) (JStr (lit "password123"))
                    (JNum (S754_zero false))).
Proof.
  apply (proj2 sanitize_trims_then_strips
           _ _ _ _ _ _ _ _
           (loginBody_members (JStr (lit "  <demo>  "))
              (JStr (lit "password<>123 ")) JUndefined)
           (loginBody_members (JStr (lit "demo")) (JStr (lit "password123"))
              (JNum (S754_zero false))));
    try (unfold absent; vm_compute; discriminate); vm_compute; reflexivity.
Defined.

(** ** What a response can be *)

Lemma includes_spec s t : includes s t = true ↔ ∃ a b, s = a ++ t ++ b.
Proof.
  induction s as [| c s IH]; cbn [includes]; rewrite orb_true_iff, bool_decide_eq_true.
  - split.
    + intros [->%prefix_nil_inv | ?]; [by exists [], [] | done].
    + intros (a & b & H). left.
      symmetry in H. apply app_eq_nil in H as [_ [-> _]%app_eq_nil]. done.
  - rewrite IH. split.
    + intros [[k ->] | (a & b & ->)]; [by exists [], k | by exists (c :: a), b].
    + intros ([| d a] & b & H).
      * left. by exists b.
      * right. injection H as -> ->. by exists a, b.
Qed.

Lemma angleFree_app s t : angleFree (s ++ t) = angleFree s && angleFree t.
Proof. apply forallb_app. Qed.

Lemma stripAngles_angleFree s : angleFree s = true → stripAngles s = s.
Proof.
  unfold angleFree, stripAngles.
  induction s as [| c s IH]; [done |]. cbn.
  intros [Hc Hs]%andb_prop. rewrite Hc. f_equal. auto.
Qed.

Ltac pick_failure :=
  unfold failureResponses, handlerFailures; cbn [app];
  solve [repeat first [apply list_elem_of_here | apply list_elem_of_further]].

(** The handler either sends one of its fixed failure answers, or it found
    a record for the sanitised fields and sends that record's email and
    username. *)
Lemma checkLogin_outcome email password rememberMe :
  checkLogin email password rememberMe ∈ handlerFailures
  ∨ ∃ cred,
      matchUser validCredentials (sanitizeInput email) (sanitizeInput password)
      = Some cred
      ∧ checkLogin email password rememberMe = loginSuccessful cred rememberMe.
Proof.
  unfold checkLogin.
  repeat match goal with
         | |- context [if ?c then _ else _] => destruct c
         end;
    try (left; pick_failure).
  destruct (matchUser _ _ _) as [cred |].
  - right. by exists cred.
  - left. pick_failure.
Qed.

Lemma loginHandler_outcome req_body :
  loginHandler req_body ∈ handlerFailures
  ∨ ∃ email password rememberMe cred,
      hasMembers req_body email password rememberMe
      ∧ matchUser validCredentials (sanitizeInput email) (sanitizeInput password)
        = Some cred
      ∧ loginHandler req_body = loginSuccessful cred rememberMe.
Proof.
  unfold loginHandler, tryLogin.
  destruct (getMember req_body (lit "email")) as [email |] eqn:He; cbn;
    [| left; pick_failure].
  destruct (getMember req_body (lit "password")) as [password |] eqn:Hp; cbn;
    [| left; pick_failure].
  destruct (getMember req_body (lit "rememberMe")) as [rememberMe |] eqn:Hr; cbn;
    [| left; pick_failure].
  destruct (checkLogin_outcome email password rememberMe) as [? | (cred & ? & ?)];
    [by left | right].
  by exists email, password, rememberMe, cred.
Qed.

Lemma loginSuccessful_in_successResponses cred rememberMe :
  cred ∈ credentialRecords →
  loginSuccessful cred rememberMe ∈ successResponses.
Proof.
  intros Hin. unfold successResponses. apply list_elem_of_bind.
  exists cred. split; [| done].
  replace (loginSuccessful cred rememberMe)
    with (loginSuccessful cred (JBool (truthy rememberMe))) by done.
  destruct (truthy rememberMe);
    repeat first [apply list_elem_of_here | apply list_elem_of_further].
Qed.

Lemma responses_hide_stored_passwords response :
  response ∈ failureResponses ++ successResponses →
  hidesStoredPasswords response = true ∧ angleFree (bodyText response) = true.
Proof.
  revert response. apply Forall_forall.
  apply (Forall_impl (λ r, hidesStoredPasswords r && angleFree (bodyText r) = true)).
  - apply Forall_forall. intros r Hr%list_elem_of_In. revert r Hr.
    apply forallb_forall. vm_compute. reflexivity.
  - intros r. apply andb_prop.
Qed.

Lemma handlerFailures_failureResponses response :
  response ∈ handlerFailures → response ∈ failureResponses.
Proof. intros. apply elem_of_app. by left. Qed.

Lemma failureResponses_status response :
  response ∈ failureResponses → status response ≠ 200.
Proof.
  revert response. apply Forall_forall.
  unfold failureResponses, handlerFailures. cbn [app].
  repeat constructor; discriminate.
Qed.

Lemma response_known req_body response :
  response = loginHandler req_body ∨ response = LoginLimiter.message →
  response ∈ failureResponses ++ successResponses.
Proof.
  rewrite elem_of_app. intros [-> | ->]; [| left; pick_failure].
  destruct (loginHandler_outcome req_body)
    as [? | (email & password & rememberMe & cred & _ & Hmatch & ->)];
    [left; apply elem_of_app; by left | right].
  apply loginSuccessful_in_successResponses.
  by apply matchUser_Some in Hmatch as [? _].
Qed.

Lemma hidesStoredPasswords_spec response cred :
  hidesStoredPasswords response = true → cred ∈ credentialRecords →
  includes (bodyText response) (Cred.password cred) = false.
Proof.
  unfold hidesStoredPasswords. rewrite forallb_forall.
  intros H Hin%list_elem_of_In. apply negb_true_iff. by apply H.
Qed.

(** C3, at a concrete request: the password "password" sent with an
    unknown identifier is answered 401, and the text of that answer
    contains the submitted string, in the words of the fixed message. *)
Lemma submitted_password_inside_message :
  getMember (loginBody (JStr (lit "nobody")) (JStr (lit "password")) JUndefined)
    (lit "password") = Some (JStr (lit "password"))
  ∧ loginHandler (loginBody (JStr (lit "nobody")) (JStr (lit "password")) JUndefined)
    = failure 401 "Invalid email/username or password" "email"
  ∧ includes
      (bodyText (loginHandler
         (loginBody (JStr (lit "nobody")) (JStr (lit "password")) JUndefined)))
      (lit "password") = true.
Proof. repeat split; vm_compute; reflexivity. Qed.

(** C3, amended: whatever the request, and in every branch (the handler's
    answers and the limiter's 429), the body text contains no stored
    password; a success body does not contain the submitted password
    either; and every other answer is one of nine fixed responses, written
    without reference to the request. *)
Theorem passwords_not_echoed req_body response :
  response = loginHandler req_body ∨ response = LoginLimiter.message →
  (∀ cred, cred ∈ credentialRecords →
     includes (bodyText response) (Cred.password cred) = false)
  ∧ (status response = 200 →
     ∀ submitted,
       getMember req_body (lit "password") = Some (JStr submitted) →
       includes (bodyText response) submitted = false)
  ∧ (status response ≠ 200 → response ∈ failureResponses).
Proof.
  intros Hresp.
  destruct (responses_hide_stored_passwords _ (response_known _ _ Hresp))
    as [Hhide Hfree].
  split; [| split].
  - intros cred. by apply hidesStoredPasswords_spec.
  - intros Hok submitted Hsub.
    destruct Hresp as [-> | ->]; [| done].
    destruct (loginHandler_outcome req_body)
      as [Hfail%handlerFailures_failureResponses%failureResponses_status
         | (email & password & rememberMe & cred & (_ & Hp & _) & Hmatch & Heq)];
      [done |].
    rewrite Hsub in Hp. injection Hp as <-.
    apply matchUser_Some in Hmatch as (Hin & _ & Hpw).
    apply not_true_is_false. intros (a & b & Hbody)%includes_spec.
    destruct (trim_split submitted) as (pre & post & Hsplit & _).
    assert (angleFree (trim submitted) = true) as Htrim.
    { rewrite Hbody, Hsplit, !angleFree_app, !andb_true_iff in Hfree. tauto. }
    cbn [sanitizeInput] in Hpw. rewrite (stripAngles_angleFree _ Htrim) in Hpw.
    assert (includes (bodyText (loginHandler req_body)) (Cred.password cred) = true)
      as Hinc.
    { apply includes_spec. exists (a ++ pre), (post ++ b).
      rewrite Hbody, Hsplit at 1. rewrite Hpw. by rewrite <- !app_assoc. }
    by rewrite (hidesStoredPasswords_spec _ _ Hhide Hin) in Hinc.
  - intros Hnot. destruct Hresp as [-> | ->]; [| pick_failure].
    destruct (loginHandler_outcome req_body)
      as [? | (email & password & rememberMe & cred & _ & _ & Heq)];
      [by apply handlerFailures_failureResponses |].
    by rewrite Heq in Hnot.
Qed.

Lemma passwords_not_echoed_witness :
  includes
    (bodyText (loginHandler (loginBody (JStr (lit "admin"))
                               (JStr (lit " admin123 ")) JUndefined)))
    (lit " admin123 ") = false.
Proof.
  apply (passwords_not_echoed
           (loginBody (JStr (lit "admin")) (JStr (lit " admin123 ")) JUndefined)
           _ (or_introl eq_refl)).
  - vm_compute. reflexivity.
  - vm_compute. reflexivity.
Defined.

(** ** The rate limiter *)

Lemma handlerFailures_status response :
  response ∈ handlerFailures →
  (400 ≤ status response) ∧ status response ≠ 429.
Proof.
  revert response. apply Forall_forall.
  unfold handlerFailures. repeat constructor; cbn; lia.
Qed.

Lemma loginHandler_counted req_body :
  counted (loginHandler req_body)
  = negb (status (loginHandler req_body) <? 400).
Proof.
  unfold counted.
  destruct (loginHandler_outcome req_body)
    as [[? ?]%handlerFailures_status | (? & ? & ? & ? & _ & _ & ->)].
  - by rewrite (proj2 (Nat.eqb_neq _ _)).
  - reflexivity.
Qed.

(** What one attempt does to the record of an address. *)
Lemma postLogin_hits store a addr :
  hitsOf (postLogin store a).1 addr
  = if decide (at_addr a = addr ∧ counted (postLogin store a).2 = true)
    then at_time a :: hitsOf store addr
    else hitsOf store addr.
Proof.
  unfold postLogin.
  destruct (decide (LoginLimiter.max ≤ _)) as [Hfull | Hroom]; cbn [fst snd].
  { rewrite decide_False; [done | by intros [_ ?]]. }
  cbn [LoginLimiter.skipSuccessfulRequests andb].
  pose proof (loginHandler_counted (at_body a)) as Hc.
  destruct (status (loginHandler (at_body a)) <? 400); cbn [fst snd negb] in *.
  { rewrite decide_False; [done | rewrite Hc; by intros [_ ?]]. }
  unfold hitsOf at 1. destruct (decide (at_addr a = addr)) as [<- | Hne].
  - rewrite lookup_insert_eq, decide_True; done.
  - rewrite lookup_insert_ne, decide_False; [done | by intros [? _] | done].
Qed.

Lemma postLogin_quotaLog store a addr :
  quotaLog (hitsOf store addr) → quotaLog (hitsOf (postLogin store a).1 addr).
Proof.
  intros Hq. rewrite postLogin_hits.
  destruct (decide _) as [[<- Hcounted] |]; [| done].
  split; [| done]. unfold postLogin in Hcounted.
  destruct (decide (LoginLimiter.max ≤ _)) as [Hfull | Hroom]; [done |].
  lia.
Qed.

Lemma serve_cons store a rest :
  serve store (a :: rest)
  = ((serve (postLogin store a).1 rest).1,
     (postLogin store a).2 :: (serve (postLogin store a).1 rest).2).
Proof.
  cbn [serve]. destruct (postLogin store a) as [store1 response].
  cbn [fst snd]. by destruct (serve store1 rest).
Qed.

Lemma serve_length attempts store :
  length (serve store attempts).2 = length attempts.
Proof.
  revert store. induction attempts as [| a rest IH]; intros store; [done |].
  rewrite serve_cons. cbn. by rewrite IH.
Qed.

(** The store after a run is the store before it with the counted attempts
    of the run added, and it keeps the quota discipline. *)
Lemma serve_hits attempts store addr :
  quotaLog (hitsOf store addr) →
  quotaLog (hitsOf (serve store attempts).1 addr)
  ∧ hitsOf (serve store attempts).1 addr
    = reverse (hitsIn addr (zip attempts (serve store attempts).2))
      ++ hitsOf store addr.
Proof.
  revert store. induction attempts as [| a rest IH]; intros store Hq; [done |].
  rewrite serve_cons. cbn [fst snd zip zip_with].
  destruct (IH _ (postLogin_quotaLog store a addr Hq)) as [Hq' Heq].
  split; [done |].
  rewrite Heq, postLogin_hits. unfold hitsIn. rewrite filter_cons. cbn [fst snd].
  destruct (decide _); [| done].
  by rewrite fmap_cons, reverse_cons, <- app_assoc.
Qed.

Lemma filter_length_mono {A} (P Q : A → Prop)
    `{∀ x, Decision (P x)} `{∀ x, Decision (Q x)} (l : list A) :
  (∀ x, P x → Q x) → (length (filter P l) ≤ length (filter Q l)).
Proof.
  intros HPQ. induction l as [| x l IH]; [done |].
  rewrite !filter_cons.
  destruct (decide (P x)) as [HP | HP], (decide (Q x)) as [HQ | HQ]; cbn;
    try lia.
  exfalso. auto.
Qed.

Lemma filter_all {A} (P : A → Prop) `{∀ x, Decision (P x)} (l : list A) :
  Forall P l → filter P l = l.
Proof.
  induction 1 as [| x l HP _ IH]; [done |].
  by rewrite filter_cons, decide_True, IH.
Qed.

(** A log that keeps the quota discipline has at most [max] entries in any
    window. *)
Lemma quotaLog_window hits T :
  quotaLog hits → (length (filter (inWindow T) hits) ≤ LoginLimiter.max).
Proof.
  induction hits as [| t older IH]; [cbn; lia |].
  intros [Hroom Hq]. rewrite filter_cons.
  destruct (decide (inWindow T t)) as [Hin | Hout]; [| auto].
  cbn [length].
  assert (length (filter (inWindow T) older) ≤ length (recentHits t older));
    [| lia].
  apply filter_length_mono. unfold inWindow in *.
  unfold LoginLimiter.windowMs in *. lia.
Qed.

Lemma hitsIn_window addr T outcomes :
  length (filter (λ ar, at_addr ar.1 = addr ∧ inWindow T (at_time ar.1)
                        ∧ counted ar.2 = true) outcomes)
  = length (filter (inWindow T) (hitsIn addr outcomes)).
Proof.
  unfold hitsIn. induction outcomes as [| [a r] rest IH]; [done |].
  rewrite !filter_cons. cbn [fst snd].
  destruct (decide (at_addr a = addr ∧ counted r = true)) as [[Ha Hc] | Hn].
  - rewrite fmap_cons, filter_cons. cbn [fst].
    destruct (decide (inWindow T (at_time a))).
    + rewrite decide_True by done. cbn. by rewrite IH.
    + rewrite decide_False by tauto. done.
  - rewrite decide_False by tauto. done.
Qed.

(** Success leaves the store as it was. *)
Lemma postLogin_success store a :
  (status (postLogin store a).2 < 400) → (postLogin store a).1 = store.
Proof.
  unfold postLogin. destruct (decide _); [done |].
  cbn [LoginLimiter.skipSuccessfulRequests andb].
  destruct (Nat.ltb_spec (status (loginHandler (at_body a))) 400); cbn; [done | lia].
Qed.

(** Once [max] recorded attempts lie inside the window, the next attempt
    is turned away. *)
Lemma postLogin_full store a :
  (LoginLimiter.max ≤ length (hitsOf store (at_addr a))) →
  Forall (λ t, (at_time a - LoginLimiter.windowMs < t)%Z)
    (hitsOf store (at_addr a)) →
  (postLogin store a).2 = LoginLimiter.message.
Proof.
  intros Hlen Hall. unfold postLogin, recentHits.
  rewrite filter_all by done.
  by rewrite decide_True.
Qed.

Lemma postLogin_fills store b :
  (400 ≤ status (loginHandler (at_body b))) →
  (LoginLimiter.max ≤ length (hitsOf store (at_addr b)))
  ∨ hitsOf (postLogin store b).1 (at_addr b)
    = at_time b :: hitsOf store (at_addr b).
Proof.
  intros Hfail. unfold postLogin.
  destruct (decide _) as [Hfull | Hroom].
  - left. etrans; [exact Hfull | apply length_filter].
  - right. rewrite (proj2 (Nat.ltb_ge _ _)) by done.
    cbn [LoginLimiter.skipSuccessfulRequests andb fst].
    unfold hitsOf at 1. by rewrite lookup_insert_eq.
Qed.

Lemma postLogin_hits_grow store b addr :
  hitsOf (postLogin store b).1 addr = hitsOf store addr
  ∨ hitsOf (postLogin store b).1 addr = at_time b :: hitsOf store addr.
Proof. rewrite postLogin_hits. destruct (decide _); auto. Qed.

Lemma serve_fills attempts store addr now :
  Forall (λ t, (now - LoginLimiter.windowMs < t)%Z) (hitsOf store addr) →
  Forall (λ b, (now - LoginLimiter.windowMs < at_time b)%Z) attempts →
  (LoginLimiter.max
   ≤ length (hitsOf store addr)
     + length (filter (λ b, at_addr b = addr
                            ∧ (400 ≤ status (loginHandler (at_body b))))
                 attempts)) →
  (LoginLimiter.max ≤ length (hitsOf (serve store attempts).1 addr))
  ∧ Forall (λ t, (now - LoginLimiter.windowMs < t)%Z)
      (hitsOf (serve store attempts).1 addr).
Proof.
  revert store. induction attempts as [| b rest IH]; intros store Hold Hnew Hlen.
  { cbn in *. split; [lia | done]. }
  rewrite serve_cons. cbn [fst].
  apply Forall_cons in Hnew as [Hb Hrest].
  rewrite filter_cons in Hlen.
  apply IH; [| done |].
  - destruct (postLogin_hits_grow store b addr) as [-> | ->];
      [done | by constructor].
  - destruct (decide (at_addr b = addr ∧ _)) as [[<- Hfail] | _].
    + destruct (postLogin_fills store b Hfail) as [Hfull | ->];
        [| cbn [length] in *; lia].
      destruct (postLogin_hits_grow store b (at_addr b)) as [-> | ->];
        cbn [length]; lia.
    + destruct (postLogin_hits_grow store b addr) as [-> | ->];
        cbn [length]; lia.
Qed.

(** The record of an address after a run, whatever the store before it. *)
Lemma serve_hits_eq attempts store addr :
  hitsOf (serve store attempts).1 addr
  = reverse (hitsIn addr (zip attempts (serve store attempts).2))
    ++ hitsOf store addr.
Proof.
  revert store. induction attempts as [| a rest IH]; intros store; [done |].
  rewrite serve_cons. cbn [fst snd zip zip_with].
  rewrite IH, postLogin_hits. unfold hitsIn. rewrite filter_cons. cbn [fst snd].
  destruct (decide _); [| done].
  by rewrite fmap_cons, reverse_cons, <- app_assoc.
Qed.

Lemma hitsIn_filter (P : Z → Prop) `{∀ t, Decision (P t)} addr outcomes :
  length (filter (λ ar, at_addr ar.1 = addr ∧ P (at_time ar.1)
                        ∧ counted ar.2 = true) outcomes)
  = length (filter P (hitsIn addr outcomes)).
Proof.
  unfold hitsIn. induction outcomes as [| [a r] rest IH]; [done |].
  rewrite !filter_cons. cbn [fst snd].
  destruct (decide (at_addr a = addr ∧ counted r = true)) as [[Ha Hc] | Hn].
  - rewrite fmap_cons, filter_cons. cbn [fst].
    destruct (decide (P (at_time a))).
    + rewrite decide_True by done. cbn. by rewrite IH.
    + rewrite decide_False by tauto. done.
  - rewrite decide_False by tauto. done.
Qed.

(** With [max] recorded attempts inside the window, the attempt is turned
    away, whatever else the store holds. *)
Lemma postLogin_recent store a :
  LoginLimiter.max ≤ length (recentHits (at_time a) (hitsOf store (at_addr a))) →
  (postLogin store a).2 = LoginLimiter.message.
Proof. intros Hfull. unfold postLogin. by rewrite decide_True. Qed.

Lemma serve_then_full store attempts a :
  LoginLimiter.max
  ≤ length (filter (λ ar, at_addr ar.1 = at_addr a
                          ∧ (at_time a - LoginLimiter.windowMs < at_time ar.1)%Z
                          ∧ counted ar.2 = true)
              (zip attempts (serve store attempts).2)) →
  (postLogin (serve store attempts).1 a).2 = LoginLimiter.message.
Proof.
  intros Hmany. apply postLogin_recent.
  rewrite (hitsIn_filter (λ t, (at_time a - LoginLimiter.windowMs < t)%Z))
    in Hmany.
  rewrite serve_hits_eq. unfold recentHits.
  rewrite filter_app, length_app, filter_reverse, length_reverse. lia.
Qed.

(** C9: the limiter as specified, in front of the handler.  From any one
    address and in any window of 15 minutes, at most 5 attempts are let
    through to the handler and answered with a failure; an attempt
    answered with success leaves the limiter's store as it was; and for
    every address, every window and every history (any store to start
    from, any earlier attempts from any address at any time), once 5
    attempts from the address were let through and failed inside the
    window that ends with an attempt, that attempt is answered 429 with
    the limiter's message naming [email], whatever credentials it
    carries.  On a fresh limiter this is the sixth of six attempts with
    wrong credentials inside one window. *)
Theorem login_attempts_limited :
  (∀ attempts addr T,
     length (filter (λ ar, at_addr ar.1 = addr ∧ inWindow T (at_time ar.1)
                           ∧ counted ar.2 = true)
               (zip attempts (serve ∅ attempts).2))
     ≤ LoginLimiter.max)
  ∧ (∀ store a rest,
       status (postLogin store a).2 = 200 →
       (postLogin store a).1 = store
       ∧ (serve store (a :: rest)).2
         = (postLogin store a).2 :: (serve store rest).2)
  ∧ (∀ store attempts a,
       LoginLimiter.max
       ≤ length (filter (λ ar, at_addr ar.1 = at_addr a
                               ∧ (at_time a - LoginLimiter.windowMs
                                  < at_time ar.1)%Z
                               ∧ counted ar.2 = true)
                   (zip attempts (serve store attempts).2)) →
       (postLogin (serve store attempts).1 a).2 = LoginLimiter.message)
  ∧ (∀ attempts a,
       Forall (λ b, (at_time a - LoginLimiter.windowMs < at_time b)%Z) attempts →
       (LoginLimiter.max
        ≤ length (filter (λ b, at_addr b = at_addr a
                               ∧ (400 ≤ status (loginHandler (at_body b))))
                    attempts)) →
       (postLogin (serve ∅ attempts).1 a).2 = LoginLimiter.message)
  ∧ LoginLimiter.max = 5
  ∧ LoginLimiter.windowMs = (15 * 60 * 1000)%Z
  ∧ LoginLimiter.message
    = failure 429 "Too many login attempts. Please try again after 15 minutes."
        "email".
Proof.
  split; [| split; [| split; [| split; [| done]]]].
  - intros attempts addr T. rewrite hitsIn_window.
    destruct (serve_hits attempts ∅ addr) as [Hq Heq]; [done |].
    unfold hitsOf at 2 in Heq. rewrite lookup_empty, app_nil_r in Heq.
    apply (quotaLog_window _ T) in Hq.
    by rewrite Heq, filter_reverse, length_reverse in Hq.
  - intros store a rest Hok.
    assert ((postLogin store a).1 = store) as Hsame
      by (apply postLogin_success; lia).
    split; [done |]. by rewrite serve_cons, Hsame.
  - intros store attempts a. apply serve_then_full.
  - intros attempts a Hwin Hmany.
    destruct (serve_fills attempts ∅ (at_addr a) (at_time a)) as [Hlen Hall];
      [unfold hitsOf; by rewrite lookup_empty | done | cbn; lia |].
    by apply postLogin_full.
Qed.

(** An address with an older history: two failed attempts, a login from
    another address, and more than 15 minutes later five more failed
    attempts; the attempt after these is turned away although it carries
    the right password. *)
Lemma login_attempts_limited_witness :
  (postLogin
     (serve ∅
        [ mkAttempt 0 (lit "10.0.0.7")
            (loginBody (JStr (lit "demo")) (JStr (lit "guess-1")) JUndefined);
          mkAttempt 1000 (lit "10.0.0.7")
            (loginBody (JStr (lit "demo")) (JStr (lit "guess-2")) JUndefined);
          mkAttempt 2000 (lit "10.0.0.9")
            (loginBody (JStr (lit "admin")) (JStr (lit "admin123")) JUndefined);
          mkAttempt 1000000 (lit "10.0.0.7")
            (loginBody (JStr (lit "demo")) (JStr (lit "guess-3")) JUndefined);
          mkAttempt 1001000 (lit "10.0.0.7")
            (loginBody (JStr (lit "demo")) (JStr (lit "guess-4")) JUndefined);
          mkAttempt 1002000 (lit "10.0.0.7")
            (loginBody (JStr (lit "demo")) (JStr (lit "guess-5")) JUndefined);
          mkAttempt 1003000 (lit "10.0.0.7")
            (loginBody (JStr (lit "demo")) (JStr (lit "guess-6")) JUndefined);
          mkAttempt 1004000 (lit "10.0.0.7")
            (loginBody (JStr (lit "demo")) (JStr (lit "guess-7")) JUndefined) ]).1
     (mkAttempt 1005000 (lit "10.0.0.7")
        (loginBody (JStr (lit "demo")) (JStr (lit "password123")) JUndefined))).2
  = LoginLimiter.message.
Proof.
  apply (proj1 (proj2 (proj2 login_attempts_limited))).
  vm_compute. lia.
Defined.

(** * Further properties of the code *)

(** ** The regular expressions *)

Lemma takeClass_spec cls min max k taken s :
  (∀ m, max = Some m → taken ≤ m) →
  takeClass cls min max k taken s = true
  ↔ ∃ a b, s = a ++ b
           ∧ Forall (λ c, cls c = true) a
           ∧ min ≤ taken + length a
           ∧ (∀ m, max = Some m → taken + length a ≤ m)
           ∧ k b = true.
Proof.
  revert taken. induction s as [| c rest IH]; intros taken Hmax; cbn [takeClass].
  - rewrite andb_true_iff, Nat.leb_le. split.
    + intros [Hmin Hk]. exists [], []. cbn.
      split_and!; [done | constructor | lia | intros m Hm%Hmax; lia | done].
    + intros (a & b & Hs & _ & Hmin & _ & Hk).
      symmetry in Hs. apply app_eq_nil in Hs as [-> ->]. cbn in Hmin.
      split; [lia | done].
  - rewrite orb_true_iff, !andb_true_iff, Nat.leb_le. split.
    + intros [[[Hc Hbelow] Hrec] | [Hmin Hk]].
      * apply IH in Hrec as (a & b & -> & Ha & Hmin & Hfit & Hk).
        -- exists (c :: a), b. cbn [length].
           split_and!; [done | by constructor | lia | | done].
           intros m Hm. specialize (Hfit m Hm). lia.
        -- intros m ->. cbn in Hbelow. apply Nat.ltb_lt in Hbelow. lia.
      * exists [], (c :: rest). cbn.
        split_and!; [done | constructor | lia | intros m Hm%Hmax; lia | done].
    + intros ([| x a] & b & Hs & Ha & Hmin & Hfit & Hk).
      * right. cbn in Hs, Hmin. subst b. split; [lia | done].
      * left. cbn in Hs. injection Hs as -> ->.
        apply Forall_cons in Ha as [Hc Ha]. cbn [length] in *.
        assert (belowMax taken max = true) as Hbelow.
        { destruct max as [m |]; [| done]. cbn. apply Nat.ltb_lt.
          specialize (Hfit m eq_refl). lia. }
        split_and!; [done | done |].
        apply IH.
        -- intros m Hm. specialize (Hfit m Hm). lia.
        -- exists a, b. split_and!; [done | done | lia | | done].
           intros m Hm. specialize (Hfit m Hm). lia.
Qed.

(** The matcher accepts exactly the strings that split along the items. *)
Lemma regexTest_spec items s :
  regexTest items s = true ↔ regexAccepts items s.
Proof.
  revert s. induction items as [| [c | cls min max] rest IH]; intros s.
  - destruct s; cbn; split; congruence.
  - destruct s as [| x s']; cbn [regexTest regexAccepts].
    + split; [done | by intros (? & ? & _)].
    + rewrite andb_true_iff, N.eqb_eq, IH. split.
      * intros [-> H]. by exists s'.
      * intros (? & [= -> ->] & H). done.
  - cbn [regexTest regexAccepts].
    rewrite takeClass_spec by (intros; lia).
    split; intros (a & b & Hs & Ha & Hmin & Hmax & Hk); exists a, b;
      (split_and!;
         [done | done | lia | intros m Hm; specialize (Hmax m Hm); lia |]);
      by apply IH.
Qed.

Lemma emailRegex_accepts s : regexAccepts emailRegex s ↔ emailShaped s.
Proof.
  unfold emailRegex, emailShaped. cbn [regexAccepts]. split.
  - intros (loc & ? & -> & Hloc & Hn1 & _ & ? & -> & domain & ? & -> & Hdom
            & Hn2 & _ & ? & -> & tld & ? & -> & Htld & Hn3 & _ & ->).
    exists loc, domain, tld. rewrite app_nil_r.
    split_and!; [done | | | |]; try (intros ->; cbn in *; lia).
    by rewrite !Forall_app.
  - intros (loc & domain & tld & -> & Hn1 & Hn2 & Hn3 & Hall).
    rewrite !Forall_app in Hall. destruct Hall as (Hloc & Hdom & Htld).
    exists loc, ([0x40%N] ++ domain ++ [0x2E%N] ++ tld).
    split_and!; [done | done | by destruct loc; cbn; [| lia] | done |].
    exists (domain ++ [0x2E%N] ++ tld). split; [done |].
    exists domain, ([0x2E%N] ++ tld).
    split_and!; [done | done | by destruct domain; cbn; [| lia] | done |].
    exists tld. split; [done |].
    exists tld, []. rewrite app_nil_r.
    split_and!; [done | done | by destruct tld; cbn; [| lia] | done | done].
Qed.

Lemma usernameRegex_accepts s :
  regexAccepts usernameRegex s
  ↔ 3 ≤ length s ≤ 20 ∧ Forall (λ c, usernameChar c = true) s.
Proof.
  unfold usernameRegex. cbn [regexAccepts]. split.
  - intros (a & ? & -> & Ha & Hmin & Hmax & ->). rewrite app_nil_r.
    specialize (Hmax 20 eq_refl). done.
  - intros [[Hmin Hmax] Hall]. exists s, []. rewrite app_nil_r.
    split_and!; [done | done | done | by intros m [= <-] | done].
Qed.

Lemma isValidEmail_spec email :
  isValidEmail email = true ↔ ∃ s, email = JStr s ∧ emailShaped (trim s).
Proof.
  unfold isValidEmail. destruct email as [| | | | s | |];
    cbn [truthy notString negb orb];
    try (rewrite ?orb_true_r; split; [done | by intros (? & ? & _)]).
  rewrite orb_false_r. destruct (bool_decide (s = [])) eqn:Hs; cbn [negb].
  - apply bool_decide_eq_true in Hs as ->. split; [done |].
    intros (? & [= <-] & loc & ? & ? & H & _). by destruct loc.
  - rewrite regexTest_spec, emailRegex_accepts. split.
    + intros. by exists s.
    + by intros (? & [= <-] & ?).
Qed.

Lemma isValidUsername_spec username :
  isValidUsername username = true
  ↔ ∃ s, username = JStr s
         ∧ 3 ≤ length (trim s) ≤ 20
         ∧ Forall (λ c, usernameChar c = true) (trim s).
Proof.
  unfold isValidUsername. destruct username as [| | | | s | |];
    cbn [truthy notString negb orb];
    try (rewrite ?orb_true_r; split; [done | by intros (? & ? & _)]).
  rewrite orb_false_r. destruct (bool_decide (s = [])) eqn:Hs; cbn [negb].
  - apply bool_decide_eq_true in Hs as ->. split; [done |].
    intros (? & [= <-] & [H _] & _). cbn in H. lia.
  - rewrite regexTest_spec, usernameRegex_accepts. split.
    + intros [? ?]. by exists s.
    + by intros (? & [= <-] & ? & ?).
Qed.

(** ** The validation helpers *)

Lemma emailShaped_at s : emailShaped s → 0x40%N ∈ s ∧ 5 ≤ length s.
Proof.
  intros (loc & domain & tld & -> & Hl & Hd & Ht & _). split.
  - rewrite !elem_of_app, elem_of_cons. tauto.
  - rewrite !length_app. cbn.
    destruct loc, domain, tld; cbn; try done; lia.
Qed.

Lemma usernameChar_plain c :
  usernameChar c = true →
  isAngle c = false ∧ isWhiteSpace c = false ∧ c ≠ 0x40%N.
Proof.
  unfold usernameChar.
  rewrite !orb_true_iff, !andb_true_iff, !N.leb_le, !N.eqb_eq. intros Hc.
  assert (0x2D ≤ c ≤ 0x7A)%N as [Hlo Hhi] by lia.
  assert (c ≠ 0x3C ∧ c ≠ 0x3E ∧ c ≠ 0x40 ∧ c ≠ 0xA0)%N as (? & ? & ? & ?) by lia.
  split_and!; [| | done].
  - unfold isAngle. by rewrite !(proj2 (N.eqb_neq _ _)).
  - unfold isWhiteSpace.
    repeat match goal with
           | |- context [(c =? ?k)%N] =>
               rewrite (proj2 (N.eqb_neq c k)) by lia
           end.
    rewrite (proj2 (N.leb_gt 0x2000 c)) by lia. done.
Qed.

(** X1: the helper [isValidEmail] accepts exactly the strings that, once
    trimmed, have the shape [local@domain.tld] with three non-empty parts
    free of white space and of [@]; anything that is not a string is
    refused, and an accepted address has at least 5 code units. *)
Theorem valid_email_shape email :
  (isValidEmail email = true ↔ ∃ s, email = JStr s ∧ emailShaped (trim s))
  ∧ (notString email = true → isValidEmail email = false)
  ∧ (isValidEmail email = true →
     ∃ s, email = JStr s ∧ 0x40%N ∈ trim s ∧ 5 ≤ length (trim s)).
Proof.
  split_and!.
  - apply isValidEmail_spec.
  - intros Hns. unfold isValidEmail. rewrite Hns. by rewrite orb_true_r.
  - intros (s & -> & [? ?]%emailShaped_at)%isValidEmail_spec. by exists s.
Qed.

Lemma valid_email_shape_witness :
  isValidEmail (JArr [JStr (lit "demo@example.com")]) = false
  ∧ ∃ s, JStr (lit " demo@example.com ") = JStr s
         ∧ 0x40%N ∈ trim s ∧ 5 ≤ length (trim s).
Proof.
  split.
  - apply (valid_email_shape (JArr [JStr (lit "demo@example.com")])).
    reflexivity.
  - apply (valid_email_shape (JStr (lit " demo@example.com "))).
    vm_compute. reflexivity.
Defined.

(** X2: the helper [isValidUsername] accepts exactly the strings that, once
    trimmed, are 3 to 20 characters from [a-z], [A-Z], [0-9], [_] and
    [-]; anything that is not a string is refused. *)
Theorem valid_username_shape username :
  (isValidUsername username = true
   ↔ ∃ s, username = JStr s
          ∧ 3 ≤ length (trim s) ≤ 20
          ∧ Forall (λ c, usernameChar c = true) (trim s))
  ∧ (notString username = true → isValidUsername username = false).
Proof.
  split.
  - apply isValidUsername_spec.
  - intros Hns. unfold isValidUsername. rewrite Hns. by rewrite orb_true_r.
Qed.

Lemma valid_username_shape_witness :
  isValidUsername (JBool true) = false.
Proof. apply (valid_username_shape (JBool true)). reflexivity. Defined.

(** X3: no value is both a valid email and a valid username. *)
Theorem email_and_username_exclusive v :
  isValidEmail v && isValidUsername v = false.
Proof.
  apply not_true_is_false.
  intros [(s & -> & [Hat _]%emailShaped_at)%isValidEmail_spec
          (? & [= <-] & _ & Hall)%isValidUsername_spec]%andb_prop.
  rewrite Forall_forall in Hall.
  by destruct (usernameChar_plain _ (Hall _ Hat)) as (_ & _ & ?).
Qed.

(** ** Sanitisation, continued *)

Lemma angleFree_stripAngles s : angleFree (stripAngles s) = true.
Proof.
  unfold angleFree, stripAngles. apply forallb_forall.
  by intros c [_ Hc]%filter_In.
Qed.

Lemma length_trim s : length (trim s) ≤ length s.
Proof.
  destruct (trim_split s) as (pre & post & Hs & _).
  rewrite Hs at 2. rewrite !length_app. lia.
Qed.

Lemma length_stripAngles s : length (stripAngles s) ≤ length s.
Proof. apply List.filter_length_le. Qed.

Lemma trimStart_fixed s :
  (∀ c, head s = Some c → isWhiteSpace c = false) → trimStart s = s.
Proof. destruct s as [| c s]; [done |]. intros H. cbn. by rewrite (H c). Qed.

Lemma trim_fixed s :
  (∀ c, head s = Some c → isWhiteSpace c = false) →
  (∀ c, last s = Some c → isWhiteSpace c = false) →
  trim s = s.
Proof.
  intros Hhead Hlast. unfold trim, trimEnd.
  rewrite (trimStart_fixed s Hhead).
  rewrite trimStart_fixed; [apply reverse_involutive |].
  intros c. rewrite head_reverse. apply Hlast.
Qed.

Lemma trim_trim s : trim (trim s) = trim s.
Proof. apply trim_fixed; [apply trim_head | apply trim_last]. Qed.

Lemma angleFree_trim s : angleFree s = true → angleFree (trim s) = true.
Proof.
  intros H. destruct (trim_split s) as (pre & post & Hs & _).
  rewrite Hs, !angleFree_app, !andb_true_iff in H. tauto.
Qed.

(** X5: what [sanitizeInput] guarantees: its result holds no [<] and no [>]
    and is never longer than the string it was given; a string without
    angle brackets that neither starts nor ends with white space is
    returned as it is; and sanitising a second time only trims again. *)
Theorem sanitizeInput_guarantees (v : JsValue) (s : jsstring) :
  angleFree (sanitizeInput v) = true
  ∧ length (sanitizeInput (JStr s)) ≤ length s
  ∧ (angleFree s = true →
     (∀ c, head s = Some c → isWhiteSpace c = false) →
     (∀ c, last s = Some c → isWhiteSpace c = false) →
     sanitizeInput (JStr s) = s)
  ∧ sanitizeInput (JStr (sanitizeInput v)) = trim (sanitizeInput v).
Proof.
  assert (angleFree (sanitizeInput v) = true) as Hfree
    by (destruct v; try done; apply angleFree_stripAngles).
  split_and!; [done | | |].
  - cbn. etrans; [apply length_stripAngles | apply length_trim].
  - intros Hs Hhead Hlast. cbn.
    by rewrite (trim_fixed s Hhead Hlast), stripAngles_angleFree.
  - cbn [sanitizeInput]. apply stripAngles_angleFree. by apply angleFree_trim.
Qed.

Lemma sanitizeInput_guarantees_witness :
  sanitizeInput (JStr (lit "demo@example.com")) = lit "demo@example.com".
Proof.
  apply (proj1 (proj2 (proj2
           (sanitizeInput_guarantees JUndefined (lit "demo@example.com"))))).
  - vm_compute. reflexivity.
  - intros c [= <-]. vm_compute. reflexivity.
  - intros c [= <-]. vm_compute. reflexivity.
Defined.

(** ** The handler, continued *)

Lemma passesValidation_iff email password :
  passesValidation email password = true
  ↔ ¬ absent email ∧ ¬ absent password
    ∧ 3 ≤ length (sanitizeInput email) ≤ 100
    ∧ 6 ≤ length (sanitizeInput password) ≤ 100.
Proof.
  unfold passesValidation.
  rewrite !andb_true_iff, !Nat.leb_le, !not_absent. tauto.
Qed.

Lemma checkLogin_rejected email password rememberMe :
  passesValidation email password = false →
  status (checkLogin email password rememberMe) = 400.
Proof.
  intros Hv. unfold checkLogin.
  destruct (truthy email) eqn:He, (truthy password) eqn:Hp; try done.
  cbn [negb orb truthy].
  destruct (bool_decide (sanitizeInput email = [])) eqn:E1; [done |].
  destruct (Nat.ltb_spec (length (sanitizeInput email)) 3); [done |].
  destruct (bool_decide (sanitizeInput password = [])) eqn:E2; [done |].
  destruct (Nat.ltb_spec (length (sanitizeInput password)) 6); [done |].
  destruct (Nat.ltb_spec 100 (length (sanitizeInput email))); [done |].
  destruct (Nat.ltb_spec 100 (length (sanitizeInput password))); [done |].
  exfalso. apply not_true_iff_false in Hv. apply Hv, passesValidation_iff.
  rewrite !not_absent. split_and!; done || lia.
Qed.

Lemma checkLogin_accepted_status email password rememberMe :
  passesValidation email password = true →
  status (checkLogin email password rememberMe) = 200
  ∨ status (checkLogin email password rememberMe) = 401.
Proof.
  intros Hv. rewrite (checkLogin_validated _ _ _ Hv).
  destruct (matchUser _ _ _); [by left | by right].
Qed.

(** Every body other than [undefined] and [null] lets the three members
    be read. *)
Lemma members_readable req_body :
  req_body ≠ JUndefined → req_body ≠ JNull →
  ∃ email password rememberMe, hasMembers req_body email password rememberMe.
Proof.
  intros Hu Hn. unfold hasMembers.
  destruct req_body; try done; cbn; eauto 10.
Qed.

(** X6: the validation of the handler, as one condition: the answer is a 400
    unless both fields are present, the sanitised identifier has 3 to 100
    code units and the sanitised password 6 to 100; then it is 200 or
    401.  The bounds themselves are accepted. *)
Theorem validation_bounds req_body email password rememberMe :
  hasMembers req_body email password rememberMe →
  (status (loginHandler req_body) = 200 ∨ status (loginHandler req_body) = 401
   ↔ ¬ absent email ∧ ¬ absent password
     ∧ 3 ≤ length (sanitizeInput email) ≤ 100
     ∧ 6 ≤ length (sanitizeInput password) ≤ 100)
  ∧ (status (loginHandler req_body) = 200
     ∨ status (loginHandler req_body) = 401
     ∨ status (loginHandler req_body) = 400).
Proof.
  intros Hm. rewrite (loginHandler_members _ _ _ _ Hm).
  rewrite <- passesValidation_iff.
  destruct (passesValidation email password) eqn:Hv.
  - pose proof (checkLogin_accepted_status _ _ rememberMe Hv). tauto.
  - pose proof (checkLogin_rejected _ _ rememberMe Hv) as H. rewrite H.
    split; [| tauto]. split; [intros [? | ?]; done | done].
Qed.

Lemma validation_bounds_witness :
  status (loginHandler
            (loginBody (JStr (lit "abc")) (JStr (replicate 100 0x61%N)) JNull))
  = 200
  ∨ status (loginHandler
              (loginBody (JStr (lit "abc")) (JStr (replicate 100 0x61%N)) JNull))
    = 401.
Proof.
  apply (validation_bounds _ _ _ _ (loginBody_members _ _ _)).
  unfold absent. vm_compute. split_and!; (discriminate || lia).
Defined.

(** X7: the [catch] branch is reached exactly when the body itself is
    [undefined] or [null]: only then is the answer a 500. *)
Theorem internal_error_iff_no_body req_body :
  status (loginHandler req_body) = 500
  ↔ req_body = JUndefined ∨ req_body = JNull.
Proof.
  split.
  - intros H500.
    assert (req_body = JUndefined ∨ req_body = JNull
            ∨ (req_body ≠ JUndefined ∧ req_body ≠ JNull))
      as [? | [? | [Hu Hn]]] by (destruct req_body; auto); [tauto | tauto |].
    exfalso.
    destruct (members_readable req_body Hu Hn) as (e & p & r & Hm).
    rewrite (loginHandler_members _ _ _ _ Hm) in H500.
    destruct (passesValidation e p) eqn:Hv;
      [ destruct (checkLogin_accepted_status e p r Hv) as [H | H]
      | pose proof (checkLogin_rejected e p r Hv) as H ];
      rewrite H in H500; discriminate.
  - by intros [-> | ->].
Qed.

(** ** Successful logins *)

(** The strings of the table survive sanitisation and the length checks. *)
Lemma records_clean cred :
  cred ∈ credentialRecords →
  (sanitizeInput (JStr (Cred.email cred)) = Cred.email cred
   ∧ sanitizeInput (JStr (Cred.username cred)) = Cred.username cred
   ∧ sanitizeInput (JStr (Cred.password cred)) = Cred.password cred)
  ∧ 3 ≤ length (Cred.email cred) ≤ 100
  ∧ 3 ≤ length (Cred.username cred) ≤ 100
  ∧ 6 ≤ length (Cred.password cred) ≤ 100.
Proof.
  revert cred. apply Forall_forall.
  unfold credentialRecords, validCredentials. cbn [fmap list_fmap snd].
  repeat constructor; vm_compute; congruence.
Qed.

Lemma table_aliasesAgree : aliasesAgree validCredentials.
Proof.
  unfold aliasesAgree, goesBy, validCredentials.
  cbn [fmap list_fmap snd]. intros cred1 cred2 identifier H1 H2.
  rewrite !elem_of_cons, elem_of_nil in H1, H2.
  destruct H1 as [-> | [-> | [-> | [-> | [-> | []]]]]];
    destruct H2 as [-> | [-> | [-> | [-> | [-> | []]]]]];
    cbn [Cred.email Cred.username];
    try reflexivity;
    intros [<- | <-] [H | H]; vm_compute in H; discriminate.
Qed.

Lemma table_keysAreAliases : keysAreAliases validCredentials.
Proof.
  unfold keysAreAliases, goesBy, validCredentials. intros key cred H.
  rewrite !elem_of_cons, elem_of_nil in H.
  destruct H as [[= -> ->] | [[= -> ->] | [[= -> ->] | [[= -> ->] | [[= -> ->] | []]]]]];
    cbn; auto.
Qed.

Lemma sanitizeInput_truthy v : sanitizeInput v ≠ [] → truthy v = true.
Proof.
  destruct v as [| | | | s | |]; try done. cbn [truthy].
  intros H. destruct (bool_decide (s = [])) eqn:E; [| done].
  apply bool_decide_eq_true in E as ->. by destruct H.
Qed.

Lemma find_first {A} (f : A → bool) (l : list A) x :
  x ∈ l → f x = true → ∃ y, List.find f l = Some y.
Proof.
  intros Hin%list_elem_of_In Hx.
  destruct (List.find f l) as [y |] eqn:E; [by exists y |].
  by rewrite (List.find_none _ _ E x Hin) in Hx.
Qed.

(** A record that goes by the sanitised identifier and has the sanitised
    password is the one the handler answers with. *)
Lemma checkLogin_matching email password rememberMe cred :
  cred ∈ credentialRecords →
  goesBy cred (sanitizeInput email) →
  Cred.password cred = sanitizeInput password →
  checkLogin email password rememberMe = loginSuccessful cred rememberMe.
Proof.
  intros Hin Hby Hpw.
  destruct (records_clean cred Hin) as (_ & Hle & Hlu & Hlp).
  assert (3 ≤ length (sanitizeInput email) ≤ 100) as Hlen
    by (destruct Hby as [<- | <-]; done).
  rewrite Hpw in Hlp.
  assert (passesValidation email password = true) as Hv.
  { apply passesValidation_iff. rewrite !not_absent.
    split_and!; try lia; apply sanitizeInput_truthy;
      intros E; rewrite E in *; cbn in *; lia. }
  rewrite (checkLogin_validated _ _ _ Hv), matchUser_uniformLookup.
  unfold uniformLookup.
  destruct (find_first
              (λ c, (str_eq (Cred.email c) (sanitizeInput email)
                     || str_eq (Cred.username c) (sanitizeInput email))
                    && str_eq (Cred.password c) (sanitizeInput password))
              credentialRecords cred Hin) as [found Hfound].
  { rewrite andb_true_iff, orb_true_iff, !str_eq_true. done. }
  rewrite Hfound. f_equal.
  apply List.find_some in Hfound as [Hin' Hf].
  rewrite andb_true_iff, orb_true_iff, !str_eq_true in Hf.
  apply (table_aliasesAgree found cred (sanitizeInput email));
    [by apply list_elem_of_In | done | unfold goesBy; tauto | done].
Qed.

(** X8: the handler answers 200 exactly when a record of the table goes by
    the sanitised identifier and has the sanitised password (no length
    check can then fail); the [user] it sends is made of that record's
    email and username. *)
Theorem login_succeeds_iff req_body email password rememberMe :
  hasMembers req_body email password rememberMe →
  (status (loginHandler req_body) = 200
   ↔ ∃ cred, cred ∈ credentialRecords
             ∧ goesBy cred (sanitizeInput email)
             ∧ Cred.password cred = sanitizeInput password)
  ∧ (∀ cred, cred ∈ credentialRecords →
       goesBy cred (sanitizeInput email) →
       Cred.password cred = sanitizeInput password →
       loginHandler req_body = loginSuccessful cred rememberMe).
Proof.
  intros Hm. rewrite (loginHandler_members _ _ _ _ Hm). split.
  - split.
    + intros Hok.
      destruct (checkLogin_outcome email password rememberMe)
        as [[? _]%handlerFailures_status | (cred & Hmatch & _)]; [lia |].
      apply matchUser_Some in Hmatch as (? & ? & ?). by exists cred.
    + intros (cred & Hin & Hby & Hpw).
      by rewrite (checkLogin_matching _ _ _ cred Hin Hby Hpw).
  - intros cred. apply checkLogin_matching.
Qed.

Lemma login_succeeds_iff_witness :
  loginHandler (loginBody (JStr (lit " test@example.com ")) (JStr (lit "<test123>"))
                  (JStr (lit "yes")))
  = loginSuccessful
      (Cred.mk (lit "test@example.com") (lit "test123") (lit "test"))
      (JStr (lit "yes")).
Proof.
  apply (login_succeeds_iff _ _ _ _ (loginBody_members _ _ _)).
  - unfold credentialRecords, validCredentials. cbn [fmap list_fmap snd].
    do 2 apply list_elem_of_further. apply list_elem_of_here.
  - left. vm_compute. reflexivity.
  - vm_compute. reflexivity.
Defined.

(** X9: [rememberMe] decides nothing but the [rememberMe] member of a
    success body: two requests that differ only there get the same
    status, the same answer when it is a failure, and the same answer
    altogether when the two values are equally truthy. *)
Theorem rememberMe_only_echoed req_body1 req_body2 email password
    rememberMe1 rememberMe2 :
  hasMembers req_body1 email password rememberMe1 →
  hasMembers req_body2 email password rememberMe2 →
  status (loginHandler req_body1) = status (loginHandler req_body2)
  ∧ (status (loginHandler req_body1) ≠ 200 →
     loginHandler req_body1 = loginHandler req_body2)
  ∧ (truthy rememberMe1 = truthy rememberMe2 →
     loginHandler req_body1 = loginHandler req_body2).
Proof.
  intros Hm1 Hm2.
  rewrite (loginHandler_members _ _ _ _ Hm1), (loginHandler_members _ _ _ _ Hm2).
  unfold checkLogin.
  repeat match goal with
         | |- context [if ?c then _ else _] => destruct c
         end; try done.
  destruct (matchUser _ _ _) as [cred |]; [| done].
  split_and!; [done | done |].
  intros Hr. unfold loginSuccessful. by rewrite Hr.
Qed.

Lemma rememberMe_only_echoed_witness :
  loginHandler (loginBody (JStr (lit "demo")) (JStr (lit "password123"))
                  (JStr (lit "on")))
  = loginHandler (loginBody (JStr (lit "demo")) (JStr (lit "password123"))
                    (JBool true)).
Proof.
  apply (rememberMe_only_echoed _ _ _ _ _ _
           (loginBody_members (JStr (lit "demo")) (JStr (lit "password123"))
              (JStr (lit "on")))
           (loginBody_members (JStr (lit "demo")) (JStr (lit "password123"))
              (JBool true))).
  vm_compute. reflexivity.
Defined.

(** ** The look-up on any table *)

Lemma scanEntries_uniformLookup table identifier password :
  scanEntries table identifier password
  = uniformLookup (snd <$> table) identifier password.
Proof.
  unfold uniformLookup.
  induction table as [| [key cred] table IH]; [done |].
  cbn [scanEntries fmap list_fmap snd List.find]. fold (@fmap list _).
  by rewrite IH.
Qed.

Lemma Map_get_Some {V} (table : list (jsstring * V)) key v :
  Map_get table key = Some v → (key, v) ∈ table.
Proof.
  induction table as [| [k w] table IH]; [done |]. cbn [Map_get].
  destruct (str_eq k key) eqn:E.
  - apply str_eq_true in E as ->. intros [= ->]. apply list_elem_of_here.
  - intros H. apply list_elem_of_further. auto.
Qed.

Lemma uniformLookup_Some records identifier password cred :
  uniformLookup records identifier password = Some cred →
  cred ∈ records ∧ goesBy cred identifier ∧ Cred.password cred = password.
Proof.
  unfold uniformLookup, goesBy. intros [Hin Hf]%List.find_some.
  rewrite andb_true_iff, orb_true_iff, !str_eq_true in Hf.
  by rewrite list_elem_of_In.
Qed.

(** X11: whatever the table, a match is a record of the table that has the
    submitted password and that was reached through its key or goes by
    the identifier: the look-up never returns a record with another
    password. *)
Theorem matchUser_sound table identifier password cred :
  matchUser table identifier password = Some cred →
  cred ∈ snd <$> table
  ∧ Cred.password cred = password
  ∧ ((identifier, cred) ∈ table ∨ goesBy cred identifier).
Proof.
  unfold matchUser.
  destruct (Map_get table identifier) as [user |] eqn:Hget.
  - destruct (str_eq (Cred.password user) password) eqn:Hpw; [| done].
    intros [= <-]. apply str_eq_true in Hpw. apply Map_get_Some in Hget.
    split_and!; [| done | by left].
    apply list_elem_of_fmap. by exists (identifier, user).
  - rewrite scanEntries_uniformLookup.
    intros (? & ? & ?)%uniformLookup_Some. split_and!; [done | done | by right].
Qed.

Lemma matchUser_sound_witness :
  Cred.password (Cred.mk (lit "admin@example.com") (lit "admin123") (lit "admin"))
  = lit "admin123".
Proof.
  apply (matchUser_sound validCredentials (lit "admin") (lit "admin123")).
  vm_compute. reflexivity.
Defined.

Lemma matchUser_consistent table identifier password :
  keysAreAliases table → aliasesAgree table →
  matchUser table identifier password
  = uniformLookup (snd <$> table) identifier password.
Proof.
  intros Hkeys Hagree. unfold matchUser.
  destruct (Map_get table identifier) as [user |] eqn:Hget;
    [| apply scanEntries_uniformLookup].
  apply Map_get_Some in Hget.
  assert (user ∈ snd <$> table) as Hin
    by (apply list_elem_of_fmap; by exists (identifier, user)).
  pose proof (Hkeys _ _ Hget) as Hby.
  destruct (uniformLookup (snd <$> table) identifier password)
    as [found |] eqn:Hfound.
  - apply uniformLookup_Some in Hfound as (Hin' & Hby' & Hpw).
    rewrite (Hagree found user identifier Hin' Hin Hby' Hby) in Hpw |- *.
    by rewrite (proj2 (str_eq_true _ _) Hpw).
  - destruct (str_eq (Cred.password user) password) eqn:Hpw; [| done].
    apply str_eq_true in Hpw. exfalso.
    unfold uniformLookup in Hfound.
    pose proof (List.find_none _ _ Hfound user
                  (proj1 (list_elem_of_In _ _) Hin)) as Hf.
    cbn beta in Hf.
    unfold goesBy in Hby.
    rewrite andb_false_iff, orb_false_iff, !str_eq_false in Hf. tauto.
Qed.

(** X12: on every table whose keys are the email or the username of their
    record and in which records sharing an identifier are the same, the
    look-up by key with its fall-back scan is the uniform look-up; on
    other tables it need not be. *)
Theorem two_paths_agree_on_consistent_tables :
  (∀ table identifier password,
     keysAreAliases table → aliasesAgree table →
     matchUser table identifier password
     = uniformLookup (snd <$> table) identifier password)
  ∧ (∃ table identifier password,
       matchUser table identifier password
       ≠ uniformLookup (snd <$> table) identifier password).
Proof.
  split; [intros; by apply matchUser_consistent |].
  exists [(lit "x", Cred.mk (lit "a@b.c") (lit "secret") (lit "abc"))],
    (lit "x"), (lit "secret").
  vm_compute. discriminate.
Qed.

Lemma two_paths_agree_on_consistent_tables_witness :
  matchUser validCredentials (lit "test@example.com") (lit "test123")
  = uniformLookup (snd <$> validCredentials) (lit "test@example.com")
      (lit "test123").
Proof.
  apply (proj1 two_paths_agree_on_consistent_tables).
  - apply table_keysAreAliases.
  - apply table_aliasesAgree.
Defined.

(** ** Identifiers of one account *)

Lemma matchUser_by_alias cred identifier password :
  cred ∈ credentialRecords → goesBy cred identifier →
  matchUser validCredentials identifier password
  = if str_eq (Cred.password cred) password then Some cred else None.
Proof.
  intros Hin Hby.
  rewrite (matchUser_consistent _ _ _ table_keysAreAliases table_aliasesAgree).
  fold credentialRecords.
  destruct (uniformLookup credentialRecords identifier password)
    as [found |] eqn:Hfound.
  - apply uniformLookup_Some in Hfound as (Hin' & Hby' & Hpw).
    rewrite (table_aliasesAgree found cred identifier Hin' Hin Hby' Hby)
      in Hpw |- *.
    by rewrite (proj2 (str_eq_true _ _) Hpw).
  - destruct (str_eq (Cred.password cred) password) eqn:Hpw; [| done].
    apply str_eq_true in Hpw. exfalso.
    unfold uniformLookup in Hfound.
    pose proof (List.find_none _ _ Hfound cred
                  (proj1 (list_elem_of_In _ _) Hin)) as Hf.
    cbn beta in Hf.
    unfold goesBy in Hby.
    rewrite andb_false_iff, orb_false_iff, !str_eq_false in Hf. tauto.
Qed.

(** With an identifier of the table, only the password decides. *)
Lemma checkLogin_known_identifier cred identifier password rememberMe :
  cred ∈ credentialRecords → goesBy cred identifier →
  checkLogin (JStr identifier) password rememberMe
  = if negb (truthy password) then
      failure 400 "Email/username and password are required" "password"
    else if negb (truthy (JStr (sanitizeInput password)))
            || (length (sanitizeInput password) <? 6) then
      failure 400 "Password must be at least 6 characters" "password"
    else if 100 <? length (sanitizeInput password) then
      failure 400 "Input too long" "password"
    else if str_eq (Cred.password cred) (sanitizeInput password) then
      loginSuccessful cred rememberMe
    else failure 401 "Invalid email/username or password" "email".
Proof.
  intros Hin Hby.
  destruct (records_clean cred Hin) as ((Hse & Hsu & _) & Hle & Hlu & _).
  assert (sanitizeInput (JStr identifier) = identifier
          ∧ 3 ≤ length identifier ≤ 100) as [Hs Hlen]
    by (destruct Hby as [<- | <-]; done).
  assert (identifier ≠ []) as Hne by (intros ->; cbn in Hlen; lia).
  unfold checkLogin. rewrite Hs.
  cbn [truthy]. rewrite (bool_decide_eq_false_2 _ Hne). cbn [negb orb].
  rewrite (proj2 (Nat.ltb_ge (length identifier) 3)) by lia.
  rewrite (proj2 (Nat.ltb_ge 100 (length identifier))) by lia.
  cbn [orb]. rewrite (matchUser_by_alias cred identifier _ Hin Hby).
  destruct (truthy password); [| done]. cbn [negb].
  repeat match goal with
         | |- context [if ?c then _ else _] => destruct c; try done
         end.
Qed.

(** X10: the email and the username of a record are interchangeable: sent
    with the same password and [rememberMe], they get the same answer. *)
Theorem email_or_username_same_answer cred req_body1 req_body2
    password rememberMe :
  cred ∈ credentialRecords →
  hasMembers req_body1 (JStr (Cred.email cred)) password rememberMe →
  hasMembers req_body2 (JStr (Cred.username cred)) password rememberMe →
  loginHandler req_body1 = loginHandler req_body2.
Proof.
  intros Hin Hm1 Hm2.
  rewrite (loginHandler_members _ _ _ _ Hm1), (loginHandler_members _ _ _ _ Hm2).
  rewrite (checkLogin_known_identifier cred (Cred.email cred) _ _ Hin)
    by by left.
  by rewrite (checkLogin_known_identifier cred (Cred.username cred) _ _ Hin)
    by by right.
Qed.

Lemma email_or_username_same_answer_witness :
  loginHandler (loginBody (JStr (lit "admin@example.com"))
                  (JStr (lit "letmein")) JNull)
  = loginHandler (loginBody (JStr (lit "admin")) (JStr (lit "letmein")) JNull).
Proof.
  apply (email_or_username_same_answer
           (Cred.mk (lit "admin@example.com") (lit "admin123") (lit "admin"))
           _ _ (JStr (lit "letmein")) JNull).
  - unfold credentialRecords, validCredentials. cbn [fmap list_fmap snd].
    apply list_elem_of_further, list_elem_of_here.
  - apply loginBody_members.
  - apply loginBody_members.
Defined.

(** ** What the responses never hold *)

(** X13: no answer of the login route, from the handler or from the limiter,
    holds a [<] or a [>] in its body text, whatever the request. *)
Theorem responses_without_angle_brackets req_body response :
  response = loginHandler req_body ∨ response = LoginLimiter.message →
  angleFree (bodyText response) = true.
Proof.
  intros Hresp.
  by destruct (responses_hide_stored_passwords _ (response_known _ _ Hresp)).
Qed.

Lemma responses_without_angle_brackets_witness :
  angleFree
    (bodyText (loginHandler (loginBody (JStr (lit "<script>")) (JStr (lit "<b>"))
                               (JStr (lit "<i>")))))
  = true.
Proof.
  apply (responses_without_angle_brackets
           (loginBody (JStr (lit "<script>")) (JStr (lit "<b>"))
              (JStr (lit "<i>")))).
  by left.
Defined.

(** ** Valid usernames and the handler *)

Lemma usernameChars_angleFree s :
  Forall (λ c, usernameChar c = true) s → angleFree s = true.
Proof.
  intros Hall. apply forallb_forall. intros c Hc%list_elem_of_In.
  rewrite Forall_forall in Hall.
  destruct (usernameChar_plain c (Hall c Hc)) as (-> & _). done.
Qed.

(** X4: an identifier that [isValidUsername] accepts is only trimmed by
    [sanitizeInput], and the handler never blames it: whenever the answer
    is a 400, the field it names is [password]. *)
Theorem valid_username_never_blamed req_body email password rememberMe :
  hasMembers req_body email password rememberMe →
  isValidUsername email = true →
  (∃ s, email = JStr s ∧ sanitizeInput email = trim s)
  ∧ (status (loginHandler req_body) = 400 →
     member (body (loginHandler req_body)) (lit "field")
     = Some (JsonString (lit "password"))).
Proof.
  intros Hm (s & -> & [Hmin Hmax] & Hall)%isValidUsername_spec.
  assert (sanitizeInput (JStr s) = trim s) as Hs
    by (cbn; by apply stripAngles_angleFree, usernameChars_angleFree).
  split; [by exists s |].
  rewrite (loginHandler_members _ _ _ _ Hm). unfold checkLogin. rewrite Hs.
  assert (trim s ≠ []) as Hne by (intros E; rewrite E in Hmin; cbn in Hmin; lia).
  assert (truthy (JStr s) = true) as Ht
    by (apply sanitizeInput_truthy; by rewrite Hs).
  rewrite Ht. cbn [negb orb truthy].
  rewrite (bool_decide_eq_false_2 _ Hne). cbn [negb orb].
  rewrite (proj2 (Nat.ltb_ge (length (trim s)) 3)) by lia.
  rewrite (proj2 (Nat.ltb_ge 100 (length (trim s)))) by lia.
  cbn [orb].
  repeat match goal with
         | |- context [if ?c then _ else _] => destruct c; try done
         end.
  destruct (matchUser _ _ _); cbn; discriminate.
Qed.

Lemma valid_username_never_blamed_witness :
  member
    (body (loginHandler (loginBody (JStr (lit " demo_user-1 ")) (JStr (lit "abc"))
                           JNull)))
    (lit "field")
  = Some (JsonString (lit "password")).
Proof.
  apply (valid_username_never_blamed _ _ _ _ (loginBody_members _ _ _)).
  - vm_compute. reflexivity.
  - vm_compute. reflexivity.
Defined.

(** ** The form's validation *)

Lemma client_isValidEmail_length s :
  Client.isValidEmail s = true → 5 ≤ length s.
Proof.
  unfold Client.isValidEmail.
  rewrite regexTest_spec, emailRegex_accepts. by intros [_ ?]%emailShaped_at.
Qed.

Lemma validateForm_email_check email :
  negb (Client.isValidEmail email) && (length email <? 3) = (length email <? 3).
Proof.
  destruct (Client.isValidEmail email) eqn:E; [| done].
  apply client_isValidEmail_length in E. cbn [negb andb]. symmetry.
  apply Nat.ltb_ge. lia.
Qed.

(** X15: [validateForm] accepts exactly when the identifier has at least 3
    code units and the password at least 6 (the test with the email
    expression changes nothing, a valid email being longer than that);
    it returns [true] exactly when it shows no error, and the errors it
    shows mark the offending fields, [email] before [password]. *)
Theorem validateForm_verdict email password :
  ((Client.validateForm email password).1 = true
   ↔ 3 ≤ length email ∧ 6 ≤ length password)
  ∧ ((Client.validateForm email password).1 = true
     ↔ (Client.validateForm email password).2 = [])
  ∧ shownField <$> (Client.validateForm email password).2
    = (if length email <? 3 then ["email"%string] else [])
      ++ (if length password <? 6 then ["password"%string] else []).
Proof.
  unfold Client.validateForm. rewrite validateForm_email_check. cbn [truthy].
  destruct (decide (email = [])) as [-> | He],
           (decide (password = [])) as [-> | Hp];
    rewrite ?bool_decide_eq_true_2, ?bool_decide_eq_false_2 by done;
    cbn [negb length];
    change (0 <? 3) with true; change (0 <? 6) with true;
    repeat match goal with
           | |- context [Nat.ltb (length ?l) ?b] =>
               destruct (Nat.ltb_spec (length l) b)
           end;
    cbn [fst snd fmap list_fmap app shownField];
    (split_and!; [split | split | reflexivity]);
    first [ done | lia | intros [? ?]; lia | intros; split; lia ].
Qed.

Lemma validateForm_accepts email password :
  (Client.validateForm email password).1 = true
  ↔ 3 ≤ length email ∧ 6 ≤ length password.
Proof.
  unfold Client.validateForm. rewrite validateForm_email_check. cbn [truthy].
  destruct (decide (email = [])) as [-> | He],
           (decide (password = [])) as [-> | Hp];
    rewrite ?bool_decide_eq_true_2, ?bool_decide_eq_false_2 by done;
    cbn [negb length];
    change (0 <? 3) with true; change (0 <? 6) with true;
    repeat match goal with
           | |- context [Nat.ltb (length ?l) ?b] =>
               destruct (Nat.ltb_spec (length l) b)
           end;
    cbn [fst]; split;
    first [ done | lia | intros [? ?]; lia | intros; split; lia ].
Qed.

(** X16: the form sends the trimmed identifier and the password as typed.
    Whatever the server's validation lets through, the form lets through
    as well: the form never stops a request the server would accept. *)
Theorem form_no_stricter_than_server (email password : jsstring) :
  passesValidation (JStr email) (JStr password) = true →
  (Client.validateForm (trim email) password).1 = true.
Proof.
  intros (_ & _ & [He _] & [Hp _])%passesValidation_iff.
  apply validateForm_accepts. cbn [sanitizeInput] in *.
  pose proof (length_stripAngles (trim email)).
  pose proof (length_stripAngles (trim password)).
  pose proof (length_trim password). lia.
Qed.

Lemma form_no_stricter_than_server_witness :
  (Client.validateForm (trim (lit " <demo> ")) (lit " <password123> ")).1 = true.
Proof.
  apply form_no_stricter_than_server. vm_compute. reflexivity.
Defined.

(** X17: in the other direction the form is enough only for clean input: an
    identifier and a password that the form accepts, that hold no angle
    bracket, that neither start nor end with white space and that have at
    most 100 code units pass the server's validation. *)
Theorem form_accepts_clean_input (email password : jsstring) :
  (Client.validateForm email password).1 = true →
  angleFree email = true → angleFree password = true →
  trim email = email → trim password = password →
  length email ≤ 100 → length password ≤ 100 →
  passesValidation (JStr email) (JStr password) = true.
Proof.
  intros [He Hp]%validateForm_accepts Hae Hap Hte Htp Hle Hlp.
  assert (sanitizeInput (JStr email) = email) as Hse
    by (cbn; by rewrite Hte, stripAngles_angleFree).
  assert (sanitizeInput (JStr password) = password) as Hsp
    by (cbn; by rewrite Htp, stripAngles_angleFree).
  apply passesValidation_iff. rewrite !not_absent.
  split_and!; try (rewrite ?Hse, ?Hsp; lia);
    apply sanitizeInput_truthy; rewrite ?Hse, ?Hsp;
    intros ->; cbn in *; lia.
Qed.

Lemma form_accepts_clean_input_witness :
  passesValidation (JStr (lit "demo")) (JStr (lit "hunter22")) = true.
Proof.
  apply form_accepts_clean_input; vm_compute; (reflexivity || lia).
Defined.

(** ** The first version of the server *)

Section FirstVersionProperties.

(** The comparison of an object's [length] member with 6: any function
    will do. *)
Variable lessThan6 : JsValue → option bool.

Lemma first_login_members req_body email password rememberMe :
  hasMembers req_body email password rememberMe →
  ¬ absent email → ¬ absent password →
  FirstVersion.login lessThan6 req_body
  = short ← FirstVersion.lengthBelow6 lessThan6 password;
    if short : bool then
      Some (FirstVersion.Failure 400 "Password must be at least 6 characters"
              "password")
    else
      match FirstVersion.findUser email password with
      | Some user =>
          Some (FirstVersion.LoggedIn (Cred.email user) (Cred.username user)
                  (if truthy rememberMe then rememberMe else JBool false))
      | None =>
          Some (FirstVersion.Failure 401 "Invalid email/username or password"
                  "email")
      end.
Proof.
  intros (He & Hp & Hr) Hte%not_absent Htp%not_absent.
  unfold FirstVersion.login. rewrite He, Hp, Hr. cbn [mbind option_bind].
  by rewrite Hte, Htp.
Qed.

(** X18: both versions of the server answer a request with an absent field in
    the same way: 400, the same message, and the same field named
    ([email] first). *)
Theorem versions_agree_on_required_fields req_body email password rememberMe :
  hasMembers req_body email password rememberMe →
  absent email ∨ absent password →
  ∃ field,
    FirstVersion.login lessThan6 req_body
    = Some (FirstVersion.Failure 400 "Email/username and password are required"
              field)
    ∧ loginHandler req_body
      = failure 400 "Email/username and password are required" field
    ∧ (field = if negb (truthy email) then "email" else "password")%string.
Proof.
  intros Hm Habs. rewrite (loginHandler_members _ _ _ _ Hm).
  destruct Hm as (He & Hp & Hr).
  unfold FirstVersion.login, checkLogin, absent in *.
  rewrite He, Hp, Hr. cbn [mbind option_bind].
  assert (negb (truthy email) || negb (truthy password) = true) as ->
    by (destruct Habs as [-> | ->]; by rewrite ?orb_true_r).
  by eexists.
Qed.

Lemma strictEq_true s v : FirstVersion.strictEq s v = true ↔ v = JStr s.
Proof.
  destruct v; cbn; try (split; [done | discriminate]).
  rewrite str_eq_true. split; [by intros -> | by intros [= ->]].
Qed.

Lemma findUser_Some email password user :
  FirstVersion.findUser email password = Some user →
  user ∈ FirstVersion.validCredentials
  ∧ (email = JStr (Cred.email user) ∨ email = JStr (Cred.username user))
  ∧ password = JStr (Cred.password user).
Proof.
  unfold FirstVersion.findUser. intros [Hin Hf]%List.find_some.
  rewrite andb_true_iff, orb_true_iff, !strictEq_true in Hf.
  by rewrite list_elem_of_In.
Qed.

Lemma first_records_lengths user :
  user ∈ FirstVersion.validCredentials →
  3 ≤ length (Cred.email user) ∧ 3 ≤ length (Cred.username user)
  ∧ 6 ≤ length (Cred.password user).
Proof.
  revert user. apply Forall_forall. unfold FirstVersion.validCredentials.
  repeat constructor; vm_compute; congruence.
Qed.

(** Every record of the first table, under each of its identifiers, has
    a record in the table of the full server with the same password and
    username. *)
Lemma first_records_kept user identifier :
  user ∈ FirstVersion.validCredentials → goesBy user identifier →
  ∃ cred, cred ∈ credentialRecords
          ∧ goesBy cred identifier
          ∧ Cred.password cred = Cred.password user
          ∧ Cred.username cred = Cred.username user.
Proof.
  unfold FirstVersion.validCredentials, goesBy. intros Hin Hby.
  rewrite !elem_of_cons, elem_of_nil in Hin.
  destruct Hin as [-> | [-> | [-> | []]]]; cbn [Cred.email Cred.username] in Hby.
  - exists (Cred.mk (lit "demo@example.com") (lit "password123") (lit "demo")).
    split_and!; [apply list_elem_of_here | done | done | done].
  - exists (Cred.mk (lit "admin@example.com") (lit "admin123") (lit "admin")).
    split_and!; [apply list_elem_of_further, list_elem_of_here | done..].
  - exists (Cred.mk (lit "test@example.com") (lit "test123") (lit "test")).
    split_and!; [do 2 apply list_elem_of_further; apply list_elem_of_here | | done..].
    right. by destruct Hby.
Qed.

(** An answer other than the required-fields 400 means both fields were
    present. *)
Lemma first_login_present req_body email password rememberMe answer :
  hasMembers req_body email password rememberMe →
  FirstVersion.login lessThan6 req_body = Some answer →
  FirstVersion.statusOf answer ≠ 400 →
  ¬ absent email ∧ ¬ absent password.
Proof.
  intros (He & Hp & Hr) Hans Hstatus. rewrite !not_absent.
  unfold FirstVersion.login in Hans. rewrite He, Hp, Hr in Hans.
  cbn [mbind option_bind] in Hans.
  destruct (truthy email), (truthy password); cbn in Hans; try done;
    injection Hans as <-; done.
Qed.

(** X19: the first version compares the password as it was sent: a string
    shorter than 6 code units is answered 400 naming [password], and so
    is an array of fewer than 6 items; a boolean or a number passes the
    length test and, like every password that is not a string, never
    logs in. *)
Theorem first_version_length_check req_body email password rememberMe :
  hasMembers req_body email password rememberMe →
  ¬ absent email → ¬ absent password →
  (∀ s, password = JStr s →
     (FirstVersion.login lessThan6 req_body
      = Some (FirstVersion.Failure 400 "Password must be at least 6 characters"
                "password")
      ↔ length s < 6))
  ∧ (∀ items, password = JArr items →
       (FirstVersion.login lessThan6 req_body
        = Some (FirstVersion.Failure 400
                  "Password must be at least 6 characters" "password")
        ↔ length items < 6))
  ∧ ((∃ b, password = JBool b) ∨ (∃ x, password = JNum x) →
     FirstVersion.login lessThan6 req_body
     = Some (FirstVersion.Failure 401 "Invalid email/username or password"
               "email"))
  ∧ (notString password = true →
     ∀ answer, FirstVersion.login lessThan6 req_body = Some answer →
               FirstVersion.statusOf answer ≠ 200).
Proof.
  intros Hm He Hp. rewrite (first_login_members _ _ _ _ Hm He Hp).
  assert (notString password = true →
          FirstVersion.findUser email password = None) as Hnone.
  { intros Hns. destruct (FirstVersion.findUser email password) eqn:E; [| done].
    apply findUser_Some in E as (_ & _ & ->). done. }
  split_and!.
  - intros s ->. cbn [FirstVersion.lengthBelow6 mbind option_bind].
    destruct (Nat.ltb_spec (length s) 6); [done |].
    split; [| lia]. by destruct (FirstVersion.findUser _ _).
  - intros items ->. cbn [FirstVersion.lengthBelow6 mbind option_bind].
    destruct (Nat.ltb_spec (length items) 6); [done |].
    split; [| lia]. by destruct (FirstVersion.findUser _ _).
  - intros [[b ->] | [x ->]]; cbn [FirstVersion.lengthBelow6 mbind option_bind];
      by rewrite Hnone.
  - intros Hns answer. rewrite (Hnone Hns).
    destruct (FirstVersion.lengthBelow6 lessThan6 password) as [[|] |];
      cbn [mbind option_bind]; intros [= <-]; done.
Qed.

(** X20: the first version logs in exactly when the identifier and the
    password, as sent, are strings equal to the email or username and to
    the password of a record of its table; and the [rememberMe] it sends
    back is the request's own value when that is truthy, [false]
    otherwise. *)
Theorem first_version_login_iff req_body email password rememberMe :
  hasMembers req_body email password rememberMe →
  ((∃ answer, FirstVersion.login lessThan6 req_body = Some answer
              ∧ FirstVersion.statusOf answer = 200)
   ↔ ∃ user, user ∈ FirstVersion.validCredentials
             ∧ (email = JStr (Cred.email user)
                ∨ email = JStr (Cred.username user))
             ∧ password = JStr (Cred.password user))
  ∧ (∀ sentEmail sentUsername sentRememberMe,
       FirstVersion.login lessThan6 req_body
       = Some (FirstVersion.LoggedIn sentEmail sentUsername sentRememberMe) →
       sentRememberMe = if truthy rememberMe then rememberMe else JBool false).
Proof.
  intros Hm. split.
  - split.
    + intros (answer & Hans & Hok).
      destruct (first_login_present _ _ _ _ answer Hm Hans) as [Hae Hap];
        [lia |].
      rewrite (first_login_members _ _ _ _ Hm Hae Hap) in Hans.
      destruct (FirstVersion.lengthBelow6 lessThan6 password) as [[|] |];
        cbn [mbind option_bind] in Hans; [by injection Hans as <- | | done].
      destruct (FirstVersion.findUser email password) as [user |] eqn:Hfind;
        [| by injection Hans as <-].
      exists user. by apply findUser_Some.
    + intros (user & Hin & Hby & ->).
      destruct (first_records_lengths user Hin) as (Hle & Hlu & Hlen).
      assert (¬ absent email) as Hae.
      { apply not_absent.
        destruct Hby as [-> | ->]; cbn [truthy];
          apply negb_true_iff, bool_decide_eq_false_2;
          intros E; rewrite E in *; cbn in *; lia. }
      assert (¬ absent (JStr (Cred.password user))) as Hap.
      { apply not_absent. cbn. apply negb_true_iff, bool_decide_eq_false_2.
        intros E; rewrite E in *; cbn in *; lia. }
      rewrite (first_login_members _ _ _ _ Hm Hae Hap).
      cbn [FirstVersion.lengthBelow6 mbind option_bind].
      rewrite (proj2 (Nat.ltb_ge _ _) Hlen).
      destruct (find_first
                  (λ cred, (FirstVersion.strictEq (Cred.email cred) email
                            || FirstVersion.strictEq (Cred.username cred) email)
                           && FirstVersion.strictEq (Cred.password cred)
                                (JStr (Cred.password user)))
                  FirstVersion.validCredentials user Hin) as [found Hfound].
      { rewrite andb_true_iff, orb_true_iff, !strictEq_true.
        split; [destruct Hby; auto | done]. }
      unfold FirstVersion.findUser. rewrite Hfound. by eexists.
  - intros u un rm Hans.
    destruct (first_login_present _ _ _ _ _ Hm Hans) as [Hae Hap]; [cbn; lia |].
    rewrite (first_login_members _ _ _ _ Hm Hae Hap) in Hans.
    destruct (FirstVersion.lengthBelow6 lessThan6 password) as [[|] |];
      cbn [mbind option_bind] in Hans; [done | | done].
    destruct (FirstVersion.findUser email password); [| done].
    by injection Hans as _ _ <-.
Qed.

Lemma first_login_kept req_body email password rememberMe
    sentEmail sentUsername sentRememberMe :
  hasMembers req_body email password rememberMe →
  FirstVersion.login lessThan6 req_body
  = Some (FirstVersion.LoggedIn sentEmail sentUsername sentRememberMe) →
  ∃ cred, cred ∈ credentialRecords
          ∧ Cred.username cred = sentUsername
          ∧ loginHandler req_body = loginSuccessful cred rememberMe.
Proof.
  intros Hm Hlogin.
  assert (∃ user, FirstVersion.findUser email password = Some user
                  ∧ Cred.username user = sentUsername) as (user & Hfind & Hun).
  { destruct (first_login_present _ _ _ _ _ Hm Hlogin) as [Hae Hap];
      [cbn; lia |].
    rewrite (first_login_members _ _ _ _ Hm Hae Hap) in Hlogin.
    destruct (FirstVersion.lengthBelow6 lessThan6 password) as [[|] |];
      cbn [mbind option_bind] in Hlogin; [done | | done].
    destruct (FirstVersion.findUser email password) as [user |]; [| done].
    injection Hlogin as _ <- _. by exists user. }
  apply findUser_Some in Hfind as (Hin & Hby & ->).
  assert (∃ identifier, email = JStr identifier ∧ goesBy user identifier)
    as (identifier & -> & Hgo)
    by (destruct Hby as [-> | ->]; eexists; (split; [done |]);
        [by left | by right]).
  destruct (first_records_kept user identifier Hin Hgo)
    as (cred & Hcred & Hgo' & Hpw & Hun').
  exists cred. split_and!; [done | congruence |].
  rewrite (loginHandler_members _ _ _ _ Hm).
  destruct (records_clean cred Hcred) as ((Hse & Hsu & Hsp) & _).
  apply checkLogin_matching; [done | |].
  - destruct Hgo' as [<- | <-]; [rewrite Hse; by left | rewrite Hsu; by right].
  - by rewrite <- Hpw, Hsp.
Qed.

(** X21: A login the first version accepts is accepted by the full server as
    well, with the same username in the answer; the full server accepts
    more, such as an identifier sent with white space around it, which
    the first version answers 401. *)
Theorem first_version_logins_kept :
  (∀ req_body email password rememberMe sentEmail sentUsername sentRememberMe,
     hasMembers req_body email password rememberMe →
     FirstVersion.login lessThan6 req_body
     = Some (FirstVersion.LoggedIn sentEmail sentUsername sentRememberMe) →
     ∃ cred, cred ∈ credentialRecords
             ∧ Cred.username cred = sentUsername
             ∧ loginHandler req_body = loginSuccessful cred rememberMe)
  ∧ (∃ req_body,
       status (loginHandler req_body) = 200
       ∧ FirstVersion.login lessThan6 req_body
         = Some (FirstVersion.Failure 401 "Invalid email/username or password"
                   "email")).
Proof.
  split; [apply first_login_kept |].
  exists (loginBody (JStr (lit " demo ")) (JStr (lit "password123")) JNull).
  split; vm_compute; reflexivity.
Qed.

End FirstVersionProperties.

Lemma versions_agree_on_required_fields_witness :
  ∃ field,
    FirstVersion.login (λ _, None) (loginBody (JStr []) JNull JNull)
    = Some (FirstVersion.Failure 400 "Email/username and password are required"
              field)
    ∧ loginHandler (loginBody (JStr []) JNull JNull)
      = failure 400 "Email/username and password are required" field
    ∧ (field = if negb (truthy (JStr [])) then "email" else "password")%string.
Proof.
  apply (versions_agree_on_required_fields (λ _, None)
           _ _ _ _ (loginBody_members (JStr []) JNull JNull)).
  left. reflexivity.
Defined.

Lemma first_version_length_check_witness :
  FirstVersion.login (λ _, None)
    (loginBody (JStr (lit "demo")) (JNum (S754_finite false 5 0)) JNull)
  = Some (FirstVersion.Failure 401 "Invalid email/username or password" "email").
Proof.
  apply (first_version_length_check (λ _, None)
           _ _ _ _
           (loginBody_members (JStr (lit "demo"))
              (JNum (S754_finite false 5 0)) JNull)).
  - unfold absent. vm_compute. discriminate.
  - unfold absent. vm_compute. discriminate.
  - right. by eexists.
Defined.

Lemma first_version_login_iff_witness :
  ∃ answer,
    FirstVersion.login (λ _, None)
      (loginBody (JStr (lit "test")) (JStr (lit "test123")) (JStr (lit "on")))
    = Some answer
    ∧ FirstVersion.statusOf answer = 200.
Proof.
  apply (first_version_login_iff (λ _, None)
           _ _ _ _
           (loginBody_members (JStr (lit "test")) (JStr (lit "test123"))
              (JStr (lit "on")))).
  exists (Cred.mk (lit "test") (lit "test123") (lit "test")).
  split_and!; [| by left | done].
  unfold FirstVersion.validCredentials.
  do 2 apply list_elem_of_further. apply list_elem_of_here.
Defined.

Lemma first_version_logins_kept_witness :
  ∃ cred, cred ∈ credentialRecords
          ∧ Cred.username cred = lit "test"
          ∧ loginHandler
              (loginBody (JStr (lit "test")) (JStr (lit "test123")) JNull)
            = loginSuccessful cred JNull.
Proof.
  apply (proj1 (first_version_logins_kept (λ _, None))
           _ _ _ _ (lit "test") (lit "test") (JBool false)
           (loginBody_members (JStr (lit "test")) (JStr (lit "test123")) JNull)).
  vm_compute. reflexivity.
Defined.

Lemma internal_error_iff_no_body_witness :
  status (loginHandler JNull) = 500.
Proof. apply internal_error_iff_no_body. by right. Defined.

(** ** Status and body *)

Lemma known_responses_consistent response :
  response ∈ failureResponses ++ successResponses →
  member (body response) (lit "success")
  = Some (JsonBool (status response =? 200))
  ∧ (status response ≠ 200 →
     member (body response) (lit "user") = None
     ∧ (member (body response) (lit "field") = Some (JsonString (lit "email"))
        ∨ member (body response) (lit "field")
          = Some (JsonString (lit "password"))))
  ∧ (status response = 200 →
     member (body response) (lit "field") = None
     ∧ is_Some (member (body response) (lit "user"))).
Proof.
  revert response. apply Forall_forall.
  match goal with
  | |- Forall ?P ?l => let l' := eval vm_compute in l in change (Forall P l')
  end.
  repeat (apply Forall_cons; split); try apply Forall_nil; try exact I;
    vm_compute;
    (split; [reflexivity | split]);
    first [ intros _; split;
            [ reflexivity
            | first [left; reflexivity | right; reflexivity | eexists; reflexivity] ]
          | intros H; first [discriminate H | destruct H; reflexivity] ].
Qed.

(** X14: the [success] member of every answer says what the status says: it
    is [true] exactly for a 200.  A failure carries no [user] and names
    the field [email] or [password]; a success carries a [user] and no
    [field]. *)
Theorem success_flag_matches_status req_body response :
  response = loginHandler req_body ∨ response = LoginLimiter.message →
  member (body response) (lit "success")
  = Some (JsonBool (status response =? 200))
  ∧ (status response ≠ 200 →
     member (body response) (lit "user") = None
     ∧ (member (body response) (lit "field") = Some (JsonString (lit "email"))
        ∨ member (body response) (lit "field")
          = Some (JsonString (lit "password"))))
  ∧ (status response = 200 →
     member (body response) (lit "field") = None
     ∧ is_Some (member (body response) (lit "user"))).
Proof. intros Hresp. by apply known_responses_consistent, (response_known req_body). Qed.

Lemma success_flag_matches_status_witness :
  member
    (body (loginHandler (loginBody (JStr (lit "demo")) (JStr (lit "wrong-one"))
                           JNull)))
    (lit "user")
  = None.
Proof.
  apply (success_flag_matches_status
           (loginBody (JStr (lit "demo")) (JStr (lit "wrong-one")) JNull)
           _ (or_introl eq_refl)).
  vm_compute. discriminate.
Defined.
